(** * chatgpt-gui: rate limiter, token budget and retrying caller

    A shallow embedding of [rate_limiter.py] and of the token, eviction,
    retry and send logic of [chatgpt_handler.py], with the properties of the
    design document stated over it.

    Conventions of the embedding.
    - A Python [str] is the list of its code points ([pystr]).
    - A Python [int] is a [Z]; a [float] holding a time or a duration is an
      exact rational ([Q]): rounding, infinities and NaN are not modelled.
    - A message (a Python [dict]) is a [gmap] from keys to values.
    - [time.time()] is an input: the successive readings of the wall clock
      are given as a list, one reading per locked section of [acquire].
    - The interpreter's recursion limit is an input: the number of further
      frames of [acquire] that fit on the call stack.
    - The remote service is an input: a function from the attempt number
      and the messages sent to what [openai.ChatCompletion.create] does.
    - Exceptions are explicit results; log records are returned as a list. *)

From Stdlib Require Import ZArith QArith Lia List Strings.String Strings.Ascii.
From stdpp Require Import base gmap list option.
From Equations Require Import Equations.

Local Open Scope Z_scope.

(** ** Python strings *)

Definition pystr : Type := list N.

(** An ASCII literal of the source, as code points. *)
Definition lit (s : String.string) : pystr :=
  map Ascii.N_of_ascii (String.list_ascii_of_string s).

Arguments lit s%_string.

(** [str.isspace] on one code point: the characters CPython treats as
    white space ([_PyUnicode_IsWhitespace]). *)
Definition isspace (c : N) : bool :=
  ((9 <=? c) && (c <=? 13) || (28 <=? c) && (c <=? 32)
   || (c =? 133) || (c =? 160) || (c =? 5760)
   || (8192 <=? c) && (c <=? 8202)
   || (c =? 8232) || (c =? 8233) || (c =? 8239) || (c =? 8287)
   || (c =? 12288))%N.

Fixpoint lstrip (s : pystr) : pystr :=
  match s with
  | c :: s' => if isspace c then lstrip s' else s
  | [] => []
  end.

Definition rstrip (s : pystr) : pystr := reverse (lstrip (reverse s)).

(** [s.strip()] *)
Definition strip (s : pystr) : pystr := rstrip (lstrip s).

(** Truth value of a string: [not s] holds exactly for the empty string. *)
Definition truthy (s : pystr) : bool :=
  match s with [] => false | _ :: _ => true end.

(** ** Exceptions *)

(** The exception classes the two files can meet.  In [openai.error] every
    class below up to [OtherOpenAIError] derives directly from
    [OpenAIError]; [OtherOpenAIError] stands for the remaining classes of
    that module and for [OpenAIError] itself. *)
Inductive exn_class :=
| APIError | Timeout | TryAgain | ServiceUnavailableError | RateLimitError
| AuthenticationError | InvalidRequestError | APIConnectionError
| PermissionError | OtherOpenAIError
| ZeroDivisionError | ValueError | RecursionError | AttributeError
| OtherException.

Record py_exn := Exn { exn_cls : exn_class; exn_text : pystr }.

(** [isinstance(e, openai.error.OpenAIError)] *)
Definition is_OpenAIError (c : exn_class) : bool :=
  match c with
  | ZeroDivisionError | ValueError | RecursionError | AttributeError
  | OtherException => false
  | _ => true
  end.

(** ** rate_limiter.py *)

Module RateLimiter.

Record t := Make {
  max_calls : Z;
  period : Q;
  tokens : Z;
  last_refill : Q
}.

(** [RateLimiter(max_calls, period)], constructed when the clock reads
    [now].  The constructor checks nothing. *)
Definition __init__ (max_calls : Z) (period : Q) (now : Q) : t :=
  {| max_calls := max_calls; period := period;
     tokens := max_calls; last_refill := now |}.

(** [int(x)] on a rational: truncation towards zero. *)
Definition int (x : Q) : Z := Z.quot (Qnum x) (Zpos (Qden x)).

Definition division_by_zero : py_exn :=
  Exn ZeroDivisionError (lit "float division by zero").

(** Lines 32-40: the refill at the head of the locked section.  The
    division [elapsed / self.period] raises when the period is zero.
    The arithmetic on times is exact: [refill_amount] is the rational
    the expression of line 36 denotes, not its rounding to a [float]. *)
Definition refill (current_time : Q) (rl : t) : py_exn + t :=
  let elapsed := (current_time - last_refill rl)%Q in
  if Qeq_bool (period rl) 0 then inl division_by_zero
  else
    let refill_amount := ((elapsed / period rl) * inject_Z (max_calls rl))%Q in
    if Qle_bool 1 refill_amount then
      let refill_tokens := int refill_amount in
      inr {| max_calls := max_calls rl; period := period rl;
             tokens := Z.min (max_calls rl) (tokens rl + refill_tokens);
             last_refill := current_time |}
    else inr rl.

(** What one pass through the locked section ends with. *)
Inductive attempt :=
| Acquired (rl : t)
| Sleep (wait_time : Q) (rl : t)
| Raise (e : py_exn) (rl : t).

(** Lines 42-49: take a token, or compute the wait. *)
Definition take (rl : t) : attempt :=
  if 1 <=? tokens rl then
    Acquired {| max_calls := max_calls rl; period := period rl;
                tokens := tokens rl - 1; last_refill := last_refill rl |}
  else if max_calls rl =? 0 then Raise division_by_zero rl
  else Sleep (period rl / inject_Z (max_calls rl))%Q rl.

(** Lines 31-49, the whole [with self.lock:] block. *)
Definition locked_section (current_time : Q) (rl : t) : attempt :=
  match refill current_time rl with
  | inl e => Raise e rl
  | inr rl' => take rl'
  end.

(** The limiter states seen inside one locked section: after the refill
    step and, when a token is taken, after the decrement. *)
Definition observed (current_time : Q) (rl : t) : list t :=
  match refill current_time rl with
  | inl _ => []
  | inr rl' =>
      match take rl' with
      | Acquired rl'' => [rl'; rl'']
      | _ => [rl']
      end
  end.

Inductive status :=
| Returned                 (* a token was taken *)
| Raised (e : py_exn)      (* an exception left [acquire] *)
| Waiting.                 (* still sleeping when the clock readings end *)

(** A run of [acquire]: how it ended, the limiter it leaves, the clock
    readings not consumed, the number of [acquire] frames on the call
    stack when it ended, the sleeps that returned and the states
    observed. *)
Record run := Run {
  result : status;
  final : t;
  rest : list Q;
  frames : nat;
  sleeps : list Q;
  seen : list t
}.

Definition negative_sleep : py_exn :=
  Exn ValueError (lit "sleep length must be non-negative").

Definition recursion_error : py_exn :=
  Exn RecursionError (lit "maximum recursion depth exceeded").

(** [time.sleep(wait_time)], line 52: it raises on a negative length. *)
Definition sleep (wait_time : Q) : option py_exn :=
  if Qle_bool 0 wait_time then None else Some negative_sleep.

(** [acquire], entered while [depth] frames of [acquire] are already on
    the stack and [room] more fit on it.  Line 53 is a call of [acquire]
    from inside [acquire]: the retry runs one frame deeper, and raises
    [RecursionError] when no frame is left for it.  Only the frames of
    [acquire] are counted: the calls of [time] and [logging] made from a
    frame are taken to fit wherever the frame does. *)
Fixpoint acquire_from (depth room : nat) (clock : list Q) (rl : t)
         {struct clock} : run :=
  match clock with
  | [] => Run Waiting rl [] (S depth) [] []
  | current_time :: clock' =>
      match locked_section current_time rl with
      | Acquired rl' =>
          Run Returned rl' clock' (S depth) [] (observed current_time rl)
      | Raise e rl' =>
          Run (Raised e) rl' clock' (S depth) [] (observed current_time rl)
      | Sleep wait_time rl' =>
          match sleep wait_time with
          | Some e =>
              Run (Raised e) rl' clock' (S depth) []
                  (observed current_time rl)
          | None =>
              match room with
              | O =>
                  Run (Raised recursion_error) rl' clock' (S depth)
                      [wait_time] (observed current_time rl)
              | S room' =>
                  let r := acquire_from (S depth) room' clock' rl' in
                  Run (result r) (final r) (rest r) (frames r)
                      (wait_time :: sleeps r)
                      (observed current_time rl ++ seen r)
              end
          end
      end
  end.

(** [acquire()], called where [room] further frames of it fit on the
    stack. *)
Definition acquire (room : nat) (clock : list Q) (rl : t) : run :=
  acquire_from 0 room clock rl.

(** [n] calls of [acquire] one after the other; a call that does not
    return ends the sequence.  The result lists every state observed. *)
Fixpoint acquire_calls (room n : nat) (clock : list Q) (rl : t) : list t :=
  match n with
  | O => []
  | S n' =>
      let r := acquire room clock rl in
      seen r ++
      match result r with
      | Returned => acquire_calls room n' (rest r) (final r)
      | _ => []
      end
  end.

(** The limiter a locked section leaves behind. *)
Definition after (a : attempt) : t :=
  match a with Acquired rl | Sleep _ rl | Raise _ rl => rl end.

(** Locked sections run one after the other, in whatever order the threads
    calling [acquire] get the lock: the states observed. *)
Fixpoint locked_sections (clock : list Q) (rl : t) : list t :=
  match clock with
  | [] => []
  | current_time :: clock' =>
      observed current_time rl
      ++ locked_sections clock' (after (locked_section current_time rl))
  end.

End RateLimiter.

(** ** chatgpt_handler.py: messages and token counting *)

(** A value stored in a message.  Sessions come from [send_message], where
    every value is a string, and from [load_session], which takes whatever
    JSON it is given; [PNone] is JSON [null]. *)
Inductive pyval :=
| PStr (s : pystr)
| PNone.

Global Instance pyval_eq_dec : EqDecision pyval.
Proof. solve_decision. Defined.

(** A message is a [dict], e.g. [{"role": "user", "content": ...}]. *)
Abbreviation message := (gmap pystr pyval).

Definition make_message (role content : pystr) : message :=
  <[lit "role" := PStr role]> (<[lit "content" := PStr content]> ∅).

Section TokenCounter.

(** [self.encoding.encode]: the tokenizer, which may raise on a text. *)
Variable encode : pystr -> option (list N).

(** [self.encoding.encode(value)]; on a value that is not a string the
    call raises. *)
Definition encode_value (value : pyval) : option (list N) :=
  match value with
  | PStr s => encode s
  | PNone => None
  end.

Definition tokens_per_message : Z := 4.
Definition tokens_per_name : Z := -1.

(** Lines 143-146, the loop over [message.items()], started with
    [num_tokens]; [None] when a step raises. *)
Fixpoint count_items (items : list (pystr * pyval)) (num_tokens : Z)
  : option Z :=
  match items with
  | [] => Some num_tokens
  | (key, value) :: items' =>
      match encode_value value with
      | None => None
      | Some toks =>
          let num_tokens := num_tokens + Z.of_nat (length toks) in
          let num_tokens :=
            if decide (key = lit "name") then num_tokens + tokens_per_name
            else num_tokens in
          count_items items' num_tokens
      end
  end.

(** Lines 141-146, the loop over [messages]. *)
Fixpoint count_messages (messages : list message) (num_tokens : Z)
  : option Z :=
  match messages with
  | [] => Some num_tokens
  | message :: messages' =>
      match count_items (map_to_list message)
                        (num_tokens + tokens_per_message) with
      | None => None
      | Some num_tokens => count_messages messages' num_tokens
      end
  end.

(** [count_tokens]: the [try] body, and [return 0] in the handler of
    [except Exception]. *)
Definition count_tokens (messages : list message) : Z :=
  match count_messages messages 0 with
  | Some num_tokens => num_tokens + 2
  | None => 0
  end.

End TokenCounter.

(** A tokenizer for examples: one token per code point, never raises. *)
Definition char_encode (s : pystr) : option (list N) := Some s.

(** ** chatgpt_handler.py: the handler *)

Module ChatGPTHandler.

(** The fields of the handler the modelled methods read or write.
    [session_file] is the content of the session file. *)
Record t := Make {
  messages : list message;          (* self.session["messages"] *)
  session_changed : bool;
  max_context_tokens : Z;
  max_response_tokens : Z;
  rate_limiter : RateLimiter.t;
  session_file : option (list message)
}.

Definition set_messages (h : t) (ms : list message) (changed : bool) : t :=
  {| messages := ms; session_changed := changed;
     max_context_tokens := max_context_tokens h;
     max_response_tokens := max_response_tokens h;
     rate_limiter := rate_limiter h;
     session_file := session_file h |}.

Definition set_rate_limiter (h : t) (rl : RateLimiter.t) : t :=
  {| messages := messages h; session_changed := session_changed h;
     max_context_tokens := max_context_tokens h;
     max_response_tokens := max_response_tokens h;
     rate_limiter := rl;
     session_file := session_file h |}.

(** Log records of [manage_token_limit]. *)
Inductive log_record :=
| Removed (removed_message : message)   (* logging.info, line 165 *)
| CannotRemove.                         (* logging.warning, line 168 *)

(** The messages a run of [manage_token_limit] removed, oldest first. *)
Definition evicted (log : list log_record) : list message :=
  omap (fun r => match r with Removed m => Some m | CannotRemove => None end)
       log.

Definition inspect {A : Type} (a : A) : {b : A | a = b} := exist _ a eq_refl.

Section Budget.

Variable encode : pystr -> option (list N).

(** The test of line 159. *)
Definition within_budget (h : t) : bool :=
  count_tokens encode (messages h) + max_response_tokens h
    <=? max_context_tokens h.

(** [manage_token_limit]: the [while True] loop of lines 157-169.  The
    match on the list is [len(...) > 1] followed by [pop(1)]. *)
Equations? manage_token_limit (h : t) : t * list log_record
  by wf (length (messages h)) lt :=
manage_token_limit h with within_budget h := {
  | true => (h, [])
  | false with inspect (messages h) := {
      | exist _ (cons first (cons removed_message later)) Hm =>
          let (h', log) :=
            manage_token_limit (set_messages h (first :: later) true) in
          (h', Removed removed_message :: log)
      | exist _ _ _ => (h, [CannotRemove])
    }
  }.
Proof. rewrite Hm. simpl. lia. Qed.

End Budget.

(** *** The retrying caller (lines 213-237) *)

(** What one call of [openai.ChatCompletion.create] does: it returns a
    response, of which the model keeps the [content] of each entry of
    [response['choices']] ([None] when the response is empty or has no
    such key), or it raises. *)
Inductive api_result :=
| ApiReturn (choices : option (list pyval))
| ApiRaise (e : py_exn).

(** The steps [send_message] performs, in program order. *)
Inductive step :=
| Acquire                               (* self.rate_limiter.acquire() *)
| AppendUser                            (* line 257 *)
| Trim (log : list log_record)          (* self.manage_token_limit() *)
| Invoke (attempt_number : nat)         (* openai.ChatCompletion.create *)
| Backoff (attempt_number : nat)        (* the sleep between attempts *)
| AppendAssistant                       (* line 272 *)
| Save.                                 (* self.save_session() *)

(** [retry_if_exception_type((APIError, Timeout, TryAgain,
    ServiceUnavailableError, RateLimitError))] *)
Definition retry_if_exception_type (c : exn_class) : bool :=
  match c with
  | APIError | Timeout | TryAgain | ServiceUnavailableError
  | RateLimitError => true
  | _ => false
  end.

(** The loop of tenacity's [retry] decorator with [reraise=True], at
    attempt [attempt_number] with [attempts_left] further attempts
    allowed: a result is returned; an exception the predicate rejects is
    raised at once; an exception it accepts is raised when no attempt is
    left and is followed by a sleep and a new attempt otherwise. *)
Fixpoint retry_from (attempts_left attempt_number : nat)
         (create : nat -> api_result) : api_result * list step :=
  match create attempt_number with
  | ApiReturn response => (ApiReturn response, [Invoke attempt_number])
  | ApiRaise e =>
      if retry_if_exception_type (exn_cls e) then
        match attempts_left with
        | O => (ApiRaise e, [Invoke attempt_number])
        | S attempts_left' =>
            let (r, steps) :=
              retry_from attempts_left' (S attempt_number) create in
            (r, Invoke attempt_number :: Backoff attempt_number :: steps)
        end
      else (ApiRaise e, [Invoke attempt_number])
  end.

(** [@retry(..., stop=stop_after_attempt(n), reraise=True)]: attempts are
    numbered from 1 and the loop stops once [attempt_number >= n]. *)
Definition retry (stop_after_attempt : nat) (create : nat -> api_result)
  : api_result * list step :=
  retry_from (stop_after_attempt - 1) 1 create.

Definition call_openai_api (create : nat -> api_result)
  : api_result * list step :=
  retry 5 create.

Definition is_invoke (s : step) : bool :=
  match s with Invoke _ => true | _ => false end.

(** Number of calls of the remote service among some steps. *)
Definition invocations (steps : list step) : nat :=
  length (List.filter is_invoke steps).

(** *** save_session and send_message *)

(** [save_session]; [write_ok] tells whether writing the file works. *)
Definition save_session (write_ok : bool) (h : t) : t :=
  if negb (session_changed h) then h
  else if write_ok then
    {| messages := messages h; session_changed := false;
       max_context_tokens := max_context_tokens h;
       max_response_tokens := max_response_tokens h;
       rate_limiter := rate_limiter h;
       session_file := Some (messages h) |}
  else h.

Definition warning_sign : pystr := [9888; 65039]%N.   (* U+26A0 U+FE0F *)
Definition cross_mark : pystr := [10060]%N.           (* U+274C *)

Definition please_provide : pystr :=
  warning_sign ++ lit " Please provide a valid input.".
Definition no_response : pystr :=
  warning_sign ++ lit " No response received from the assistant.".
Definition authentication_error : pystr :=
  cross_mark ++ lit " Authentication error: Check your API key.".
Definition rate_limit_exceeded : pystr :=
  warning_sign ++ lit " Rate limit exceeded. Please try again later.".
Definition api_error (e : py_exn) : pystr :=
  cross_mark ++ lit " OpenAI API error: " ++ exn_text e.
Definition unexpected_error (e : py_exn) : pystr :=
  cross_mark ++ lit " An unexpected error occurred: " ++ exn_text e.

(** The [except] clauses of lines 283-294, in their order. *)
Definition handle (e : py_exn) : pystr :=
  match exn_cls e with
  | AuthenticationError => authentication_error
  | RateLimitError => rate_limit_exceeded
  | c => if is_OpenAIError c then api_error e else unexpected_error e
  end.

(** [None.strip()] *)
Definition none_has_no_strip : py_exn :=
  Exn AttributeError (lit "'NoneType' object has no attribute 'strip'").

(** What the handler cannot decide by itself. *)
Record world := World {
  stack_room : nat;    (* frames left for the retries of acquire *)
  clock : list Q;      (* readings of time.time() *)
  create : nat -> list message -> api_result;
                       (* the remote service, per attempt and messages *)
  write_ok : bool      (* whether the session file is writable *)
}.

(** [openai.ChatCompletion.create(..., messages=self.session["messages"],
    ...)] of lines 232-236, as a function of the attempt number. *)
Definition remote (w : world) (h : t) : nat -> api_result :=
  fun attempt_number => create w attempt_number (messages h).

Inductive outcome :=
| Reply (text : pystr)       (* send_message returned this string *)
| Propagated (e : py_exn)    (* an exception left send_message *)
| Hung.                      (* acquire had not returned when the clock
                                readings ended *)

Section Send.

Variable encode : pystr -> option (list N).

(** [send_message], lines 239-294. *)
Definition send_message (w : world) (h : t) (user_input : pystr)
  : outcome * t * list step :=
  if negb (truthy (strip user_input)) then (Reply please_provide, h, [])
  else
    let r :=
      RateLimiter.acquire (stack_room w) (clock w) (rate_limiter h) in
    let h := set_rate_limiter h (RateLimiter.final r) in
    match RateLimiter.result r with
    | RateLimiter.Waiting => (Hung, h, [Acquire])
    | RateLimiter.Raised e => (Propagated e, h, [Acquire])
    | RateLimiter.Returned =>
        let h :=
          set_messages h
            (messages h ++ [make_message (lit "user") user_input]) true in
        let (h, log) := manage_token_limit encode h in
        let (response, calls) := call_openai_api (remote w h) in
        let before := [Acquire; AppendUser; Trim log] ++ calls in
        match response with
        | ApiReturn (Some (PStr content :: _)) =>
            let answer := strip content in
            let h :=
              set_messages h
                (messages h ++ [make_message (lit "assistant") answer])
                true in
            let h := save_session (write_ok w) h in
            (Reply answer, h, before ++ [AppendAssistant; Save])
        | ApiReturn (Some (PNone :: _)) =>
            (Reply (handle none_has_no_strip), h, before)
        | ApiReturn _ => (Reply no_response, h, before)
        | ApiRaise e => (Reply (handle e), h, before)
        end
    end.

End Send.

End ChatGPTHandler.

(** ** chatgpt_handler.py: construction and sessions on disk *)

Module Lifecycle.

Import ChatGPTHandler.

(** The session file as the constructor finds it.  A readable file holds
    what [save_session] wrote: a session with its list of messages. *)
Inductive file_state :=
| Absent
| Unreadable
| Holds (saved : list message).

(** What [open] followed by [json.load] gives later on. *)
Definition on_disk (f : file_state) : option (list message) :=
  match f with
  | Holds saved => Some saved
  | Absent | Unreadable => None
  end.

(** [load_session(session_data)], lines 185-202.  [session_data] is
    [Some ms] for a session [{"messages": ms}] and [None] for [None] and
    for the empty [dict], both of which are false in [if session_data].
    When reading the file raises, the handler of line 200 installs an
    empty session and leaves [session_changed] alone. *)
Definition load_session (session_data : option (list message)) (h : t) : t :=
  match session_data with
  | Some ms => set_messages h ms false
  | None =>
      match session_file h with
      | Some ms => set_messages h ms false
      | None => set_messages h [] (session_changed h)
      end
  end.

(** [if system_prompt: messages.append(...)] on an empty session. *)
Definition opening (system_prompt : option pystr) : list message :=
  match system_prompt with
  | Some prompt =>
      if truthy prompt then [make_message (lit "system") prompt] else []
  | None => []
  end.

(** [start_new_session], lines 109-124.  [there] is what the file of the
    new session name holds before the call. *)
Definition start_new_session (there : option (list message))
           (write_ok : bool) (system_prompt : option pystr) (h : t) : t :=
  save_session write_ok
    {| messages := opening system_prompt; session_changed := true;
       max_context_tokens := max_context_tokens h;
       max_response_tokens := max_response_tokens h;
       rate_limiter := rate_limiter h;
       session_file := there |}.

(** What the constructor reads from its surroundings: the environment
    variable, the exception of [os.makedirs] if it raises one, the session
    file, whether that file can be written, and the exception of
    [tiktoken.encoding_for_model] if it raises one. *)
Record boot := Boot {
  api_key : option pystr;
  makedirs_error : option py_exn;
  disk : file_state;
  writable : bool;
  encoding_error : option py_exn
}.

(** The [ValueError] of line 74. *)
Definition key_not_set : py_exn :=
  Exn ValueError
      (lit "OPENAI_API_KEY is not set in the environment variables.").

(** [ChatGPTHandler(...)], lines 47-107, constructed when the clock reads
    [now]. *)
Definition __init__ (b : boot) (max_context_tokens max_response_tokens : Z)
           (system_prompt : option pystr)
           (rate_limit_max_calls : Z) (rate_limit_period now : Q)
  : py_exn + t :=
  match api_key b with
  | None | Some [] => inl key_not_set
  | Some (_ :: _) =>
      match makedirs_error b with
      | Some e => inl e
      | None =>
          let limiter :=
            RateLimiter.__init__ rate_limit_max_calls rate_limit_period now in
          let empty :=
            Make [] false max_context_tokens max_response_tokens limiter
                 (on_disk (disk b)) in
          let h :=
            match disk b with
            | Absent =>
                save_session (writable b)
                  (set_messages empty (opening system_prompt) true)
            | Unreadable | Holds _ => load_session None empty
            end in
          match encoding_error b with
          | Some e => inl e
          | None => inr h
          end
      end
  end.

End Lifecycle.

(** ** gui.py: the callers of send_message *)

Module ChatGPTGUI.

Import ChatGPTHandler.

(** What the window is told to do. *)
Inductive signal :=
| AppendChat (sender message : pystr)           (* append_chat_signal *)
| UpdateSendButton (enabled : bool) (text : pystr).

Definition no_response_from_chatgpt : pystr :=
  warning_sign ++ lit " No response received from ChatGPT.".

Definition error_line (e : py_exn) : pystr :=
  warning_sign ++ lit " Error: " ++ exn_text e.

Section Gui.

Variable encode : pystr -> option (list N).

(** [process_message], lines 344-360: the worker thread.  When
    [send_message] never returns, neither does the worker, and nothing is
    emitted. *)
Definition process_message (w : world) (h : t) (user_input : pystr)
  : t * list signal :=
  match ChatGPTHandler.send_message encode w h user_input with
  | (Reply response, h', _) =>
      (h',
       [AppendChat (lit "ChatGPT")
                   (if truthy response then response
                    else no_response_from_chatgpt);
        UpdateSendButton true (lit "Send")])
  | (Propagated e, h', _) =>
      (h',
       [AppendChat (lit "ChatGPT") (error_line e);
        UpdateSendButton true (lit "Send")])
  | (Hung, h', _) => (h', [])
  end.

(** [send_message], lines 331-342, followed by the worker it starts;
    [text] is the content of the input field. *)
Definition send_message (w : world) (h : t) (text : pystr)
  : t * list signal :=
  let user_input := strip text in
  if negb (truthy user_input) then (h, [])
  else
    let (h', emitted) := process_message w h user_input in
    (h',
     AppendChat (lit "You") user_input
     :: UpdateSendButton false (lit "Sending...") :: emitted).

End Gui.

End ChatGPTGUI.

(** ** Invariant, order of steps and sample data of the statements *)

Section Statements.

Import ChatGPTHandler.

(** The invariant carried through a run: the capacity never changes and
    the token count stays between 0 and it. *)
Definition bucket_within (capacity : Z) (rl : RateLimiter.t) : Prop :=
  RateLimiter.max_calls rl = capacity
  /\ 0 <= RateLimiter.tokens rl <= capacity.

(** An empty bucket of capacity 1 and period 60 whose last refill was at
    time 0. *)
Definition drained : RateLimiter.t := RateLimiter.Make 1 60 0 0.

(** A message as [load_session] can bring one in from a JSON file:
    [{"role": "user", "content": null}]. *)
Definition null_content : message :=
  <[lit "role" := PStr (lit "user")]> (<[lit "content" := PNone]> ∅).

Definition hello : message := make_message (lit "user") (lit "hello").

Definition be_brief : message := make_message (lit "system") (lit "S").

(** A handler with a system prompt to which [send_message] has just
    appended the user's message; context limit 12, response limit 5.  Two
    messages count at least 2 + 4 + 4 tokens with any tokenizer. *)
Definition tight : t :=
  Make [be_brief; hello] true 12 5 (RateLimiter.__init__ 60 60 0) None.

(** A handler whose only message is over budget: 15 + 5 > 10 (and at
    least 6 + 5 > 10 with any tokenizer). *)
Definition lone : t :=
  Make [hello] true 10 5 (RateLimiter.__init__ 60 60 0) None.

(** What the service raises on a wrong API key. *)
Definition bad_key : py_exn :=
  Exn AuthenticationError (lit "Incorrect API key provided").

(** A new session without system prompt and with the default limits. *)
Definition fresh : t :=
  Make [] false 128000 32768 (RateLimiter.__init__ 60 60 0) None.

(** The clock reads 0, the service answers at once, the file is
    writable. *)
Definition quiet : world :=
  World 990 [0%Q] (fun _ _ => ApiReturn (Some [PStr (lit "Hi!")])) true.

(** Index of the first step of a kind. *)
Fixpoint position (kind : step -> bool) (steps : list step) : option nat :=
  match steps with
  | [] => None
  | s :: steps' =>
      if kind s then Some 0%nat else S <$> position kind steps'
  end.

(** Both kinds of step occur, the first before the second. *)
Definition before (kind1 kind2 : step -> bool) (steps : list step) : Prop :=
  match position kind1 steps, position kind2 steps with
  | Some i, Some j => (i < j)%nat
  | _, _ => False
  end.

Definition is_acquire (s : step) : bool :=
  match s with Acquire => true | _ => false end.




End Statements.

(** * Properties of the rate limiter *)

Section RateLimiterFacts.

Import RateLimiter.

Lemma int_nonneg (x : Q) : Qle_bool 1 x = true -> 0 <= int x.
Proof.
  intros H. apply Qle_bool_imp_le in H.
  unfold Qle in H. simpl in H. unfold int.
  apply Z.quot_pos; lia.
Qed.

Lemma refill_within capacity current_time rl rl' :
  bucket_within capacity rl ->
  refill current_time rl = inr rl' ->
  bucket_within capacity rl'.
Proof.
  intros [Hc Ht]. unfold refill.
  destruct (Qeq_bool (period rl) 0); [discriminate |].
  destruct (Qle_bool 1 _) eqn:Hle; intros [= <-].
  - apply int_nonneg in Hle. split; simpl; [assumption | lia].
  - split; assumption.
Qed.

Lemma take_within capacity rl :
  bucket_within capacity rl ->
  match take rl with
  | Acquired rl' | Sleep _ rl' | Raise _ rl' => bucket_within capacity rl'
  end.
Proof.
  intros [Hc Ht]. unfold take.
  destruct (1 <=? tokens rl) eqn:Hle.
  - apply Z.leb_le in Hle. split; simpl; [assumption | lia].
  - destruct (max_calls rl =? 0); split; assumption.
Qed.

Lemma locked_section_within capacity current_time rl :
  bucket_within capacity rl ->
  match locked_section current_time rl with
  | Acquired rl' | Sleep _ rl' | Raise _ rl' => bucket_within capacity rl'
  end.
Proof.
  intros H. unfold locked_section.
  destruct (refill current_time rl) as [e | rl1] eqn:Hr; [exact H |].
  apply take_within. eapply refill_within; eassumption.
Qed.

Lemma observed_within capacity current_time rl :
  bucket_within capacity rl ->
  Forall (bucket_within capacity) (observed current_time rl).
Proof.
  intros H. unfold observed.
  destruct (refill current_time rl) as [e | rl1] eqn:Hr; [constructor |].
  pose proof (refill_within _ _ _ _ H Hr) as H1.
  pose proof (take_within _ _ H1) as H2.
  destruct (take rl1);
    repeat (apply Forall_cons; [assumption |]); apply Forall_nil.
Qed.

Lemma acquire_from_within capacity clock : forall depth room rl,
  bucket_within capacity rl ->
  bucket_within capacity (final (acquire_from depth room clock rl))
  /\ Forall (bucket_within capacity)
            (seen (acquire_from depth room clock rl)).
Proof.
  induction clock as [| current_time clock IH]; intros depth room rl H; simpl.
  - split; [assumption | constructor].
  - pose proof (locked_section_within _ current_time _ H) as Hs.
    pose proof (observed_within _ current_time _ H) as Ho.
    destruct (locked_section current_time rl) as [rl' | w rl' | e rl']; simpl.
    + split; assumption.
    + destruct (sleep w); [split; assumption |].
      destruct room as [| room]; [split; assumption |].
      destruct (IH (S depth) room rl' Hs) as [Hf Hseen].
      split; [assumption |]. apply Forall_app. split; assumption.
    + split; assumption.
Qed.

Lemma acquire_calls_within capacity room n : forall clock rl,
  bucket_within capacity rl ->
  Forall (bucket_within capacity) (acquire_calls room n clock rl).
Proof.
  induction n as [| n IH]; intros clock rl H; simpl; [constructor |].
  destruct (acquire_from_within capacity clock 0%nat room rl H)
    as [Hf Hseen].
  apply Forall_app. split; [exact Hseen |].
  unfold acquire.
  destruct (result (acquire_from 0 room clock rl)); try constructor.
  apply IH. exact Hf.
Qed.

Lemma locked_sections_within capacity clock : forall rl,
  bucket_within capacity rl ->
  Forall (bucket_within capacity) (locked_sections clock rl).
Proof.
  induction clock as [| current_time clock IH]; intros rl H; simpl;
    [constructor |].
  apply Forall_app. split; [apply observed_within; exact H |].
  apply IH. pose proof (locked_section_within _ current_time _ H) as Hs.
  destruct (locked_section current_time rl); exact Hs.
Qed.

Lemma locked_section_raises (current_time : Q) (rl rl' : t) (e : py_exn) :
  locked_section current_time rl = Raise e rl' -> e = division_by_zero.
Proof.
  unfold locked_section, refill.
  destruct (Qeq_bool (period rl) 0); [intros [= <- _]; reflexivity |].
  destruct (Qle_bool 1 _); unfold take;
    destruct (1 <=? _); try discriminate;
    destruct (_ =? 0); try discriminate; intros [= <- _]; reflexivity.
Qed.

Lemma sleep_raises (wait_time : Q) (e : py_exn) :
  sleep wait_time = Some e -> e = negative_sleep.
Proof.
  unfold sleep. destruct (Qle_bool 0 wait_time); [discriminate |].
  intros [= <-]. reflexivity.
Qed.

(** Each retry runs one frame deeper; when no frame is left the retry
    raises [RecursionError]. *)
Lemma frames_from clock : forall depth room rl,
  let r := acquire_from depth room clock rl in
  (result r = Raised recursion_error
   /\ length (sleeps r) = S room
   /\ frames r = (depth + S room)%nat)
  \/ (result r <> Raised recursion_error
      /\ (length (sleeps r) <= room)%nat
      /\ frames r = S (depth + length (sleeps r))).
Proof.
  induction clock as [| current_time clock IH]; intros depth room rl; simpl.
  - right. split; [discriminate |]. split; lia.
  - destruct (locked_section current_time rl) as [rl' | w rl' | e rl'] eqn:E;
      simpl.
    + right. split; [discriminate |]. split; lia.
    + destruct (sleep w) as [e |] eqn:Es; simpl.
      * right. apply sleep_raises in Es. subst e.
        split; [discriminate |]. split; lia.
      * destruct room as [| room]; simpl.
        -- left. split; [reflexivity |]. split; lia.
        -- destruct (IH (S depth) room rl')
             as [(Hr & Hs & Hf) | (Hr & Hs & Hf)].
           ++ left. split; [exact Hr |]. split; lia.
           ++ right. split; [exact Hr |]. split; lia.
    + right. apply locked_section_raises in E. subst e.
      split; [discriminate |]. split; lia.
Qed.

(** A drained bucket asked [n] times while the clock stands still and once
    more a minute later: with room for [n] retries the last attempt takes
    the token, [n + 1] frames deep. *)
Lemma drained_waits n :
  forall depth room,
    (n <= room)%nat ->
    let r := acquire_from depth room (repeat 0%Q n ++ [60%Q]) drained in
    result r = Returned /\ frames r = S (depth + n).
Proof.
  induction n as [| n IH]; intros depth room Hroom.
  - change (repeat 0%Q 0 ++ [60%Q]) with [60%Q]. cbn [acquire_from].
    change (locked_section 60 drained) with (Acquired (Make 1 60 0 60)).
    cbn. split; [reflexivity | lia].
  - destruct room as [| room]; [lia |].
    change (repeat 0%Q (S n) ++ [60%Q]) with (0%Q :: (repeat 0%Q n ++ [60%Q])).
    cbn [acquire_from].
    change (locked_section 0 drained) with (Sleep (60 / inject_Z 1)%Q drained).
    cbv beta iota.
    change (sleep (60 / inject_Z 1)) with (@None py_exn). cbv beta iota.
    destruct (IH (S depth) room ltac:(lia)) as [Hr Hf].
    cbn [result frames]. split; [exact Hr | rewrite Hf; lia].
Qed.

(** The same bucket asked once more than there is room for retries: the
    last retry raises [RecursionError]. *)
Lemma drained_overflows room :
  forall depth (later : list Q),
    let r := acquire_from depth room (repeat 0%Q (S room) ++ later) drained in
    result r = Raised recursion_error
    /\ frames r = S (depth + room)
    /\ length (sleeps r) = S room.
Proof.
  induction room as [| room IH]; intros depth later.
  - change (repeat 0%Q 1 ++ later) with (0%Q :: later). cbn [acquire_from].
    change (locked_section 0 drained) with (Sleep (60 / inject_Z 1)%Q drained).
    cbv beta iota.
    change (sleep (60 / inject_Z 1)) with (@None py_exn). cbv beta iota.
    cbn. repeat split. lia.
  - change (repeat 0%Q (S (S room)) ++ later)
      with (0%Q :: (repeat 0%Q (S room) ++ later)).
    cbn [acquire_from].
    change (locked_section 0 drained) with (Sleep (60 / inject_Z 1)%Q drained).
    cbv beta iota.
    change (sleep (60 / inject_Z 1)) with (@None py_exn). cbv beta iota.
    destruct (IH (S depth) later) as (Hr & Hf & Hs).
    cbn [result frames sleeps]. split; [exact Hr |].
    split; [rewrite Hf; lia | cbn [length]; rewrite Hs; reflexivity].
Qed.

(** [drained] is what one call at time 0 leaves of a fresh limiter with
    [max_calls = 1] and [period = 60]. *)
Example drained_reached :
  final (acquire 990 [0%Q] (__init__ 1 60 0)) = drained.
Proof. reflexivity. Qed.

Lemma no_refill_at_zero_capacity (x : Q) : Qle_bool 1 (x * inject_Z 0) = false.
Proof.
  destruct (Qle_bool 1 (x * inject_Z 0)) eqn:H; [| reflexivity].
  apply Qle_bool_imp_le in H. unfold Qle in H. simpl in H. lia.
Qed.

(** C4, as stated, fails: the constructor accepts a negative [max_calls]
    and the fresh bucket then holds a negative number of tokens. *)
Lemma negative_capacity_breaks_bucket :
  ~ (0 <= tokens (__init__ (-1) 60 0) <= -1).
Proof. simpl. lia. Qed.

(** C4, amended: for a limiter constructed with [max_calls = capacity] and
    [capacity >= 0], in every sequence of [acquire] calls and for all
    clock readings, the token count lies between 0 and [capacity] after
    construction, after every refill and after every decrement; the same
    holds when the locked sections of concurrent calls interleave. *)
Theorem tokens_within_capacity
    (capacity : Z) (period now : Q) (room n : nat) (clock : list Q) :
  0 <= capacity ->
  let fresh_limiter := __init__ capacity period now in
  Forall (fun rl => 0 <= tokens rl <= capacity)
         (fresh_limiter :: acquire_calls room n clock fresh_limiter)
  /\ Forall (fun rl => 0 <= tokens rl <= capacity)
            (locked_sections clock fresh_limiter).
Proof.
  intros Hc fresh_limiter.
  assert (H0 : bucket_within capacity fresh_limiter).
  { split; simpl; [reflexivity | lia]. }
  assert (Hweaken : forall l, Forall (bucket_within capacity) l ->
                              Forall (fun rl => 0 <= tokens rl <= capacity) l).
  { intros l. apply List.Forall_impl. intros rl [_ H]. exact H. }
  split; apply Hweaken.
  - apply Forall_cons; [exact H0 |].
    apply acquire_calls_within. exact H0.
  - apply locked_sections_within. exact H0.
Qed.

(** Three calls on a bucket of two tokens. *)
Lemma tokens_within_capacity_witness :
  0 <= 2 /\
  Forall (fun rl => 0 <= tokens rl <= 2)
         (__init__ 2 60 0
          :: acquire_calls 990 3 [0; 0; 0; 1; 30; 31]%Q (__init__ 2 60 0))
  /\ Forall (fun rl => 0 <= tokens rl <= 2)
            (locked_sections [0; 0; 0; 1; 30; 31]%Q (__init__ 2 60 0)).
Proof.
  split; [lia |].
  apply (tokens_within_capacity 2 60 0 990 3 [0; 0; 0; 1; 30; 31]%Q). lia.
Defined.

(** C5, as stated, fails: the wait is a recursion, not a loop, and its
    depth is not a constant but grows with the failed attempts.  A drained
    bucket of capacity 1 and period 60, asked while the clock stands still
    for [n] readings and then reads 60, holds a token at the last reading;
    where [n] retries fit on the stack the call takes it [n + 1] frames
    deep.  With 1000 readings, a stack with room for 1000 retries gives
    1001 frames; where only 999 fit, the call does not wait for the token:
    its thousandth retry raises [RecursionError]. *)
Lemma acquire_fails_at_recursion_limit :
  (forall n room : nat,
      (n <= room)%nat ->
      result (acquire room (repeat 0%Q n ++ [60%Q]) drained) = Returned
      /\ frames (acquire room (repeat 0%Q n ++ [60%Q]) drained) = S n)
  /\ (result (acquire 1000 (repeat 0%Q 1000 ++ [60%Q]) drained) = Returned
      /\ frames (acquire 1000 (repeat 0%Q 1000 ++ [60%Q]) drained)
         = 1001%nat)
  /\ (result (acquire 999 (repeat 0%Q 1000 ++ [60%Q]) drained)
      = Raised recursion_error
      /\ frames (acquire 999 (repeat 0%Q 1000 ++ [60%Q]) drained) = 1000%nat
      /\ length (sleeps (acquire 999 (repeat 0%Q 1000 ++ [60%Q]) drained))
         = 1000%nat).
Proof.
  split; [| split].
  - intros n room Hroom. apply (drained_waits n 0 room Hroom).
  - apply (drained_waits 1000 0 1000). lia.
  - apply (drained_overflows 999 0 [60%Q]).
Qed.

(** C5, amended: [acquire] retries by calling itself after the sleep, so
    every failed attempt that is retried adds one frame: a call that has
    slept [k] times and goes on is [k + 1] frames deep.  Only the
    interpreter bounds the depth: with room for [room] further frames, a
    call never sleeps more than [room + 1] times, and after that many
    sleeps its retry raises [RecursionError] instead of waiting on. *)
Theorem acquire_depth_is_sleeps (room : nat) (clock : list Q) (rl : t) :
  let r := acquire room clock rl in
  (result r = Raised recursion_error
   /\ length (sleeps r) = S room
   /\ frames r = S room)
  \/ (result r <> Raised recursion_error
      /\ (length (sleeps r) <= room)%nat
      /\ frames r = S (length (sleeps r))).
Proof. apply (frames_from clock 0 room rl). Qed.

(** C6, as stated, fails: [RateLimiter(0, 60.0)] is constructed, with an
    empty bucket, and the division by zero happens in [acquire]. *)
Lemma zero_max_calls_accepted :
  tokens (__init__ 0 60 0) = 0
  /\ result (acquire 990 [1%Q] (__init__ 0 60 0)) = Raised division_by_zero.
Proof. split; reflexivity. Qed.

(** C6, amended: the constructor accepts [max_calls = 0]; on such a
    limiter every call of [acquire] raises [ZeroDivisionError] in its
    first locked section, without sleeping and without changing the
    limiter, whatever the period and the clock. *)
Theorem zero_max_calls_raises_in_acquire
    (period now current_time : Q) (room : nat) (clock : list Q) :
  let rl := __init__ 0 period now in
  let r := acquire room (current_time :: clock) rl in
  result r = Raised division_by_zero /\ final r = rl /\ sleeps r = [].
Proof.
  simpl. unfold acquire. cbn [acquire_from].
  unfold locked_section, refill. cbn [RateLimiter.period max_calls __init__].
  destruct (Qeq_bool period 0).
  - simpl. repeat split.
  - rewrite no_refill_at_zero_capacity. simpl. repeat split.
Qed.

End RateLimiterFacts.

(** * Properties of the token counter *)

Section TokenCounterFacts.

Variable encode : pystr -> option (list N).

Lemma count_items_bounds (items : list (pystr * pyval)) :
  forall (n z : Z),
    NoDup (items.*1) ->
    count_items encode items n = Some z ->
    (lit "name" ∉ items.*1 -> n <= z) /\ n - 1 <= z.
Proof.
  induction items as [| [key value] items IH]; intros n z Hnd Hc; simpl in *.
  - injection Hc as <-. split; intros; lia.
  - apply list.NoDup_cons in Hnd as [Hkey Hnd].
    destruct (encode_value encode value) as [toks |]; [| discriminate].
    unfold tokens_per_name in Hc.
    destruct (decide (key = lit "name")) as [-> | Hne].
    + destruct (IH _ _ Hnd Hc) as [Hfree _]. specialize (Hfree Hkey).
      split; [| lia].
      intros Hnot. exfalso. apply Hnot. apply list_elem_of_here.
    + destruct (IH _ _ Hnd Hc) as [Hfree Hany].
      split; [| lia].
      intros Hnot. assert (lit "name" ∉ items.*1) as Hn'.
      { intros Hin. apply Hnot. apply list_elem_of_further. exact Hin. }
      specialize (Hfree Hn'). lia.
Qed.

Lemma count_items_succeeds (items : list (pystr * pyval)) :
  forall n : Z,
    (forall key value, (key, value) ∈ items ->
                       is_Some (encode_value encode value)) ->
    is_Some (count_items encode items n).
Proof.
  induction items as [| [key value] items IH]; intros n Hall; simpl.
  - eexists. reflexivity.
  - destruct (Hall key value (list_elem_of_here _ _)) as [toks ->].
    apply IH. intros k v Hin. apply (Hall k v).
    apply list_elem_of_further. exact Hin.
Qed.

(** A message adds at least three tokens: the overhead of four, the
    lengths of its values, and one off when it has a ["name"]. *)
Lemma message_adds_three (m : message) (n z : Z) :
  count_items encode (map_to_list m) (n + tokens_per_message) = Some z ->
  n + 3 <= z.
Proof.
  intros H.
  destruct (count_items_bounds _ _ _ (NoDup_fst_map_to_list m) H) as [_ Hz].
  unfold tokens_per_message in Hz. lia.
Qed.

Lemma count_messages_snoc (ms : list message) (m : message) :
  forall n : Z,
    count_messages encode (ms ++ [m]) n
    = match count_messages encode ms n with
      | Some k => count_items encode (map_to_list m) (k + tokens_per_message)
      | None => None
      end.
Proof.
  induction ms as [| m0 ms IH]; intros n; simpl.
  - destruct (count_items encode (map_to_list m) (n + tokens_per_message));
      reflexivity.
  - destruct (count_items encode (map_to_list m0) (n + tokens_per_message));
      [apply IH | reflexivity].
Qed.

(** C8, amended: [count_tokens] is a function of the message list and the
    tokenizer alone, and appending a message whose values the tokenizer
    accepts never lowers the count. *)
Theorem count_tokens_monotone (ms : list message) (m : message) :
  (forall key value, m !! key = Some value ->
                     is_Some (encode_value encode value)) ->
  (forall ms' : list message,
      ms' = ms -> count_tokens encode ms' = count_tokens encode ms)
  /\ count_tokens encode ms <= count_tokens encode (ms ++ [m]).
Proof.
  intros Hm. split; [intros ms' ->; reflexivity |].
  unfold count_tokens. rewrite count_messages_snoc.
  destruct (count_messages encode ms 0) as [k |]; [| lia].
  destruct (count_items_succeeds (map_to_list m) (k + tokens_per_message))
    as [z Hz].
  { intros key value Hin. apply (Hm key).
    apply elem_of_map_to_list. exact Hin. }
  rewrite Hz. apply message_adds_three in Hz. lia.
Qed.

End TokenCounterFacts.

(** C8, as stated, fails: encoding the [null] raises, the handler of
    [count_tokens] returns 0, and the count drops from 15 to 0. *)
Lemma count_tokens_drops_on_null_content :
  ~ (count_tokens char_encode ([hello] ++ [null_content])
     >= count_tokens char_encode [hello]).
Proof.
  assert (H1 : count_tokens char_encode [hello] = 15) by reflexivity.
  assert (H2 : count_tokens char_encode ([hello] ++ [null_content]) = 0)
    by reflexivity.
  rewrite H1, H2. lia.
Qed.

(** Appending [hello] to a session that holds [hello]. *)
Lemma count_tokens_monotone_witness :
  (forall key value, hello !! key = Some value ->
                     is_Some (encode_value char_encode value))
  /\ count_tokens char_encode [hello]
     <= count_tokens char_encode ([hello] ++ [hello]).
Proof.
  assert (Hw : forall key value, hello !! key = Some value ->
                                 is_Some (encode_value char_encode value)).
  { intros key value H.
    destruct value as [s |]; [eexists; reflexivity |].
    exfalso. unfold hello, make_message in H.
    apply lookup_insert_Some in H as [[_ H] | [_ H]]; [discriminate |].
    apply lookup_insert_Some in H as [[_ H] | [_ H]]; [discriminate |].
    rewrite lookup_empty in H. discriminate. }
  split; [exact Hw |].
  apply (count_tokens_monotone char_encode [hello] hello Hw).
Defined.

(** * Properties of the context window manager *)

Section BudgetFacts.

Import ChatGPTHandler.

Variable encode : pystr -> option (list N).

(** The loop ends within budget or with at most one message. *)
Lemma manage_token_limit_exit (h : t) :
  within_budget encode (manage_token_limit encode h).1 = true
  \/ (length (messages (manage_token_limit encode h).1) <= 1)%nat.
Proof.
  funelim (manage_token_limit encode h).
  - left. assumption.
  - right. simpl. rewrite e. simpl. lia.
  - right. simpl. rewrite e. simpl. lia.
  - destruct (manage_token_limit encode (set_messages h (first :: later) true))
      as [h' log]. simpl in *. assumption.
Qed.

(** Within budget or with at most one message, the loop removes nothing
    and leaves the handler as it is. *)
Lemma manage_token_limit_stable (h : t) :
  within_budget encode h = true \/ (length (messages h) <= 1)%nat ->
  (manage_token_limit encode h).1 = h
  /\ evicted (manage_token_limit encode h).2 = [].
Proof.
  intros Hstop. funelim (manage_token_limit encode h).
  - split; reflexivity.
  - split; reflexivity.
  - split; reflexivity.
  - exfalso. destruct Hstop as [Hb | Hl].
    + congruence.
    + rewrite Hm in Hl. simpl in Hl. lia.
Qed.

(** The message at index 0 is never removed. *)
Lemma manage_token_limit_keeps_first (h : t) :
  head (messages (manage_token_limit encode h).1) = head (messages h).
Proof.
  funelim (manage_token_limit encode h); try reflexivity.
  destruct (manage_token_limit encode (set_messages h (first :: later) true))
    as [h' log]. simpl in *. rewrite Hm. simpl. assumption.
Qed.

(** The messages kept and the messages removed make up the session: one
    removal per round, so the loop ends after at most as many rounds as
    there are messages. *)
Lemma manage_token_limit_rounds (h : t) :
  (length (messages (manage_token_limit encode h).1)
   + length (evicted (manage_token_limit encode h).2)
   = length (messages h))%nat.
Proof.
  funelim (manage_token_limit encode h); try (simpl; lia).
  destruct (manage_token_limit encode (set_messages h (first :: later) true))
    as [h' log]. simpl in *. rewrite Hm. simpl. lia.
Qed.

(** C3, amended: when [manage_token_limit] returns, either the session
    fits the budget or at most one message is left in it. *)
Theorem manage_token_limit_budget_or_single (h : t) :
  let h' := (manage_token_limit encode h).1 in
  count_tokens encode (messages h') + max_response_tokens h'
    <= max_context_tokens h'
  \/ (length (messages h') <= 1)%nat.
Proof.
  simpl. destruct (manage_token_limit_exit h) as [Hb | Hl].
  - left. unfold within_budget in Hb. apply Z.leb_le in Hb. exact Hb.
  - right. exact Hl.
Qed.

(** C7: a second run of [manage_token_limit] right after a first one
    removes nothing and leaves the message list, and the whole handler,
    as the first run left them. *)
Theorem manage_token_limit_idempotent (h : t) :
  let h1 := (manage_token_limit encode h).1 in
  evicted (manage_token_limit encode h1).2 = []
  /\ messages (manage_token_limit encode h1).1 = messages h1
  /\ (manage_token_limit encode h1).1 = h1.
Proof.
  simpl.
  destruct (manage_token_limit_stable _ (manage_token_limit_exit h))
    as [Hsame Hnone].
  repeat split; [exact Hnone | rewrite Hsame; reflexivity | exact Hsame].
Qed.

(** A session of two messages that is over budget loses the message at
    index 1, which is the one appended last. *)
Lemma two_messages_lose_latest (h : t) (oldest latest : message) :
  within_budget encode h = false ->
  messages h = [oldest; latest] ->
  evicted (manage_token_limit encode h).2 = [latest]
  /\ messages (manage_token_limit encode h).1 = [oldest].
Proof.
  intros Hover Hmsgs. funelim (manage_token_limit encode h).
  - congruence.
  - congruence.
  - congruence.
  - pose proof Hm as Hm'. rewrite Hmsgs in Hm'.
    injection Hm' as -> -> <-.
    destruct (manage_token_limit_stable (set_messages h [first] true))
      as [Hsame Hnone]; [right; simpl; lia |].
    destruct (manage_token_limit encode (set_messages h [first] true))
      as [h' log]. simpl in *. subst h'. rewrite Hnone. split; reflexivity.
Qed.

End BudgetFacts.

(** C1 at a failing input: the session [system, user] counts 26 tokens
    against a limit of 12 - 5; line 162 sees two messages, [pop(1)] removes
    the user's message, the one appended last, and the loop ends with the
    system message alone. *)
Theorem manage_token_limit_evicts_latest :
  list.last (ChatGPTHandler.messages tight) = Some hello
  /\ ChatGPTHandler.evicted
       (ChatGPTHandler.manage_token_limit char_encode tight).2 = [hello]
  /\ ChatGPTHandler.messages
       (ChatGPTHandler.manage_token_limit char_encode tight).1 = [be_brief].
Proof.
  split; [reflexivity |].
  apply (two_messages_lose_latest char_encode tight be_brief hello);
    reflexivity.
Qed.

(** C3, as stated, fails: with one message left the loop stops at the
    warning of line 168 and returns with the session over budget. *)
Lemma single_message_stays_over_budget :
  let h' := (ChatGPTHandler.manage_token_limit char_encode lone).1 in
  ~ (count_tokens char_encode (ChatGPTHandler.messages h')
     + ChatGPTHandler.max_response_tokens h'
     <= ChatGPTHandler.max_context_tokens h').
Proof.
  intros h'.
  assert (Hsame : h' = lone).
  { apply manage_token_limit_stable. right. simpl. lia. }
  rewrite Hsame.
  assert (H : count_tokens char_encode (ChatGPTHandler.messages lone) = 15)
    by reflexivity.
  rewrite H. simpl. lia.
Qed.

(** * Properties of the retrying caller *)

Section RetryFacts.

Import ChatGPTHandler.

(** C9: when the first call of the remote service raises an exception
    that is not one of the five retried classes, the decorated call
    raises that exception after exactly one invocation and no sleep,
    whatever the attempt limit; in particular for the limit 5 of
    [call_openai_api]. *)
Theorem fatal_error_not_retried
    (stop_after_attempt : nat) (create : nat -> api_result) (e : py_exn) :
  create 1%nat = ApiRaise e ->
  retry_if_exception_type (exn_cls e) = false ->
  retry stop_after_attempt create = (ApiRaise e, [Invoke 1])
  /\ call_openai_api create = (ApiRaise e, [Invoke 1])
  /\ invocations (call_openai_api create).2 = 1%nat.
Proof.
  intros Hfirst Hfatal.
  assert (Hany : forall left, retry_from left 1 create
                              = (ApiRaise e, [Invoke 1])).
  { intros left. destruct left; simpl; rewrite Hfirst, Hfatal; reflexivity. }
  unfold call_openai_api, retry. rewrite !Hany. repeat split.
Qed.

(** A rejected API key under a limit of three attempts. *)
Lemma fatal_error_not_retried_witness :
  retry 3 (fun _ => ApiRaise bad_key) = (ApiRaise bad_key, [Invoke 1])
  /\ call_openai_api (fun _ => ApiRaise bad_key)
     = (ApiRaise bad_key, [Invoke 1])
  /\ invocations (call_openai_api (fun _ => ApiRaise bad_key)).2 = 1%nat.
Proof.
  apply (fatal_error_not_retried 3 (fun _ => ApiRaise bad_key) bad_key);
    reflexivity.
Defined.

(** Two failures of a retried class and then a response: three
    invocations and two sleeps. *)
Example transient_twice_then_success :
  retry 3 (fun k => if (k <=? 2)%nat
                    then ApiRaise (Exn Timeout (lit "timed out"))
                    else ApiReturn (Some [PStr (lit "ok")]))
  = (ApiReturn (Some [PStr (lit "ok")]),
     [Invoke 1; Backoff 1; Invoke 2; Backoff 2; Invoke 3]).
Proof. reflexivity. Qed.

End RetryFacts.

(** * Properties of send_message *)

Section SendFacts.

Import ChatGPTHandler.

Variable encode : pystr -> option (list N).

Lemma lstrip_blank (s : pystr) : forallb isspace s = true -> lstrip s = [].
Proof.
  induction s as [| c s IH]; simpl; [reflexivity |].
  intros H. apply andb_prop in H as [Hc Hs]. rewrite Hc. apply IH, Hs.
Qed.

Lemma strip_blank (s : pystr) : forallb isspace s = true -> strip s = [].
Proof. intros H. unfold strip. rewrite (lstrip_blank s H). reflexivity. Qed.

(** C10: on an input that is empty or made of white space only,
    [send_message] returns the fixed warning and does nothing else: the
    handler (session, rate limiter, session file) is unchanged and no
    step is performed, so no token is taken and the remote service is
    not called. *)
Theorem blank_input_is_refused (w : world) (h : t) (user_input : pystr) :
  forallb isspace user_input = true ->
  send_message encode w h user_input = (Reply please_provide, h, []).
Proof.
  intros H. unfold send_message. rewrite (strip_blank _ H). reflexivity.
Qed.

End SendFacts.

(** ** A run of send_message *)

Section SendRun.

Import ChatGPTHandler.


(** A space, a tab, a line feed and a no-break space. *)
Lemma blank_input_is_refused_witness :
  forallb isspace [32; 9; 10; 160]%N = true
  /\ send_message char_encode quiet tight [32; 9; 10; 160]%N
     = (Reply please_provide, tight, []).
Proof.
  split; [reflexivity |].
  apply (blank_input_is_refused char_encode quiet tight). reflexivity.
Defined.

End SendRun.

(** * Further properties of the rate limiter *)


Section RateLimiterMore.

Import RateLimiter.













(** X3.  On a limiter whose period is zero every call of [acquire] raises
    [ZeroDivisionError] at the division of line 36, before the bucket is
    looked at: no token is handed out even from a full bucket, and the
    limiter is left as it was. *)
Theorem zero_period_always_raises
    (room : nat) (current_time : Q) (clock : list Q) (rl : t) :
  (period rl == 0)%Q ->
  let r := acquire room (current_time :: clock) rl in
  result r = Raised division_by_zero /\ final r = rl
  /\ sleeps r = [] /\ seen r = [].
Proof.
  intros Hp. simpl. unfold acquire. cbn [acquire_from].
  assert (Hz : Qeq_bool (period rl) 0 = true)
    by (apply Qeq_bool_iff; exact Hp).
  unfold locked_section, observed, refill. rewrite Hz.
  repeat split.
Qed.

(** [RateLimiter(60, 0.0)] with its bucket full. *)
Lemma zero_period_always_raises_witness :
  (period (__init__ 60 0 0) == 0)%Q
  /\ result (acquire 990 [1%Q] (__init__ 60 0 0)) = Raised division_by_zero
  /\ final (acquire 990 [1%Q] (__init__ 60 0 0)) = __init__ 60 0 0
  /\ sleeps (acquire 990 [1%Q] (__init__ 60 0 0)) = []
  /\ seen (acquire 990 [1%Q] (__init__ 60 0 0)) = [].
Proof.
  split; [reflexivity |].
  apply (zero_period_always_raises 990 1 [] (__init__ 60 0 0)). reflexivity.
Defined.

Lemma locked_section_constants (current_time : Q) (rl : t) :
  max_calls (after (locked_section current_time rl)) = max_calls rl
  /\ period (after (locked_section current_time rl)) = period rl.
Proof.
  unfold locked_section, refill.
  destruct (Qeq_bool (period rl) 0); [split; reflexivity |].
  destruct (Qle_bool 1 _); unfold take; cbn [tokens max_calls];
    destruct (1 <=? _); try (split; reflexivity);
    destruct (_ =? 0); split; reflexivity.
Qed.

Lemma sleep_wait (current_time wait_time : Q) (rl rl' : t) :
  locked_section current_time rl = Sleep wait_time rl' ->
  wait_time = (period rl / inject_Z (max_calls rl))%Q.
Proof.
  unfold locked_section.
  destruct (refill current_time rl) as [e | rl1] eqn:Er; [discriminate |].
  assert (Hc : max_calls rl1 = max_calls rl /\ period rl1 = period rl).
  { revert Er. unfold refill.
    destruct (Qeq_bool (period rl) 0); [discriminate |].
    destruct (Qle_bool 1 _); intros [= <-]; split; reflexivity. }
  destruct Hc as [Hc1 Hc2]. unfold take.
  destruct (1 <=? tokens rl1); [discriminate |].
  destruct (max_calls rl1 =? 0); [discriminate |].
  intros [= <- _]. rewrite Hc1, Hc2. reflexivity.
Qed.

Lemma acquire_from_constants (clock : list Q) : forall depth room rl,
  max_calls (final (acquire_from depth room clock rl)) = max_calls rl
  /\ period (final (acquire_from depth room clock rl)) = period rl
  /\ Forall (fun wait_time =>
               wait_time = (period rl / inject_Z (max_calls rl))%Q)
            (sleeps (acquire_from depth room clock rl)).
Proof.
  induction clock as [| current_time clock IH]; intros depth room rl;
    cbn [acquire_from].
  - repeat split. constructor.
  - pose proof (locked_section_constants current_time rl) as [Hm Hp].
    destruct (locked_section current_time rl) as [rl' | w rl' | e rl'] eqn:E;
      cbn [after] in Hm, Hp.
    + cbn [final sleeps].
      repeat split; [assumption | assumption | constructor].
    + apply sleep_wait in E.
      destruct (sleep w); cbn [final sleeps];
        [repeat split; [assumption | assumption | constructor] |].
      destruct room as [| room]; cbn [final sleeps].
      * repeat split; [assumption | assumption |].
        apply Forall_cons; [exact E | constructor].
      * destruct (IH (S depth) room rl') as (Hm' & Hp' & Hs').
        rewrite Hm, Hp in *. repeat split; [assumption | assumption |].
        apply Forall_cons; [exact E | exact Hs'].
    + cbn [final sleeps].
      repeat split; [assumption | assumption | constructor].
Qed.

(** X4.  A call of [acquire] never changes [max_calls] or [period], and
    each of its sleeps lasts [period / max_calls], however often it
    retries and whatever the clock reads. *)
Theorem every_sleep_is_period_over_max_calls
    (room : nat) (clock : list Q) (rl : t) :
  let r := acquire room clock rl in
  max_calls (final r) = max_calls rl
  /\ period (final r) = period rl
  /\ Forall (fun wait_time =>
               wait_time = (period rl / inject_Z (max_calls rl))%Q)
            (sleeps r).
Proof. apply acquire_from_constants. Qed.

(** The refill never takes tokens away from a bucket that is within
    its capacity, and it moves [last_refill] only to the current time. *)
Theorem refill_never_lowers (current_time : Q) (rl rl' : t) :
  tokens rl <= max_calls rl ->
  refill current_time rl = inr rl' ->
  tokens rl <= tokens rl'
  /\ (rl' = rl \/ last_refill rl' = current_time).
Proof.
  intros Hcap. unfold refill.
  destruct (Qeq_bool (period rl) 0); [discriminate |].
  destruct (Qle_bool 1 _) eqn:E; intros [= <-].
  - apply int_nonneg in E. simpl. split; [lia | right; reflexivity].
  - split; [lia | left; reflexivity].
Qed.

(** Half a minute passes on a bucket holding one token of two. *)
Lemma refill_never_lowers_witness :
  tokens (Make 2 60 1 0) <= max_calls (Make 2 60 1 0)
  /\ refill 30 (Make 2 60 1 0) = inr (Make 2 60 2 30)
  /\ tokens (Make 2 60 1 0) <= tokens (Make 2 60 2 30)
  /\ (Make 2 60 2 30 = Make 2 60 1 0 \/ last_refill (Make 2 60 2 30) = 30%Q).
Proof.
  assert (H1 : tokens (Make 2 60 1 0) <= max_calls (Make 2 60 1 0))
    by (simpl; lia).
  assert (H2 : refill 30 (Make 2 60 1 0) = inr (Make 2 60 2 30))
    by reflexivity.
  split; [exact H1 |]. split; [exact H2 |].
  apply (refill_never_lowers 30 (Make 2 60 1 0) (Make 2 60 2 30) H1 H2).
Defined.

Lemma take_acquired (rl rl' : t) :
  take rl = Acquired rl' -> 1 <= tokens rl /\ tokens rl' = tokens rl - 1.
Proof.
  unfold take. destruct (1 <=? tokens rl) eqn:E.
  - intros [= <-]. apply Z.leb_le in E. split; [exact E | reflexivity].
  - destruct (max_calls rl =? 0); discriminate.
Qed.

Lemma returned_takes_one_from (clock : list Q) : forall depth room rl,
  result (acquire_from depth room clock rl) = Returned ->
  exists earlier s,
    seen (acquire_from depth room clock rl)
    = earlier ++ [s; final (acquire_from depth room clock rl)]
    /\ 1 <= tokens s
    /\ tokens (final (acquire_from depth room clock rl)) = tokens s - 1.
Proof.
  induction clock as [| current_time clock IH]; intros depth room rl;
    cbn [acquire_from]; [discriminate |].
  unfold locked_section, observed.
  destruct (refill current_time rl) as [e | rl1]; [discriminate |].
  destruct (take rl1) as [rl2 | w rl2 | e rl2] eqn:Et;
    [| | cbn [result seen final]; discriminate].
  - cbn [result seen final].
    intros _. exists [], rl1. apply take_acquired in Et as [Hone Htok].
    split; [reflexivity |]. split; [exact Hone | exact Htok].
  - destruct (sleep w); [cbn [result]; discriminate |].
    destruct room as [| room]; [cbn [result]; discriminate |].
    cbn [result seen final]. intros Hret.
    assert (rl2 = rl1) as ->.
    { revert Et. unfold take. destruct (1 <=? tokens rl1); [discriminate |].
      destruct (max_calls rl1 =? 0); [discriminate |].
      intros [= _ <-]. reflexivity. }
    destruct (IH (S depth) room rl1 Hret)
      as (earlier & s & Hseen & Hone & Htok).
    exists (([rl1] : list t) ++ earlier), s. rewrite Hseen.
    split; [| split; [exact Hone | exact Htok]].
    rewrite <- app_assoc. reflexivity.
Qed.

(** X5.  A call of [acquire] that returns has taken exactly one token, and
    from a bucket that held at least one: the last two states it observes
    are the bucket after a refill step, with a token in it, and the same
    bucket with one token less. *)
Theorem returned_takes_one (room : nat) (clock : list Q) (rl : t) :
  let r := acquire room clock rl in
  result r = Returned ->
  exists earlier s,
    seen r = earlier ++ [s; final r]
    /\ 1 <= tokens s
    /\ tokens (final r) = tokens s - 1.
Proof. simpl. apply returned_takes_one_from. Qed.

(** The drained bucket, asked three times before the minute is over. *)
Lemma returned_takes_one_witness :
  result (acquire 990 [0; 0; 0; 60]%Q drained) = Returned
  /\ exists earlier s,
       seen (acquire 990 [0; 0; 0; 60]%Q drained)
       = earlier ++ [s; final (acquire 990 [0; 0; 0; 60]%Q drained)]
       /\ 1 <= tokens s
       /\ tokens (final (acquire 990 [0; 0; 0; 60]%Q drained))
          = tokens s - 1.
Proof.
  split; [reflexivity |].
  apply (returned_takes_one 990 [0; 0; 0; 60]%Q drained). reflexivity.
Defined.

End RateLimiterMore.

(** * Further properties of the retrying caller *)

(** Whether the decorator retries after this outcome of the call. *)
Definition retried (r : ChatGPTHandler.api_result) : bool :=
  match r with
  | ChatGPTHandler.ApiRaise e =>
      ChatGPTHandler.retry_if_exception_type (exn_cls e)
  | ChatGPTHandler.ApiReturn _ => false
  end.

(** The steps of [S more] consecutive attempts numbered from [first], with
    a sleep between each two. *)
Fixpoint attempts_trace (first more : nat) : list ChatGPTHandler.step :=
  match more with
  | O => [ChatGPTHandler.Invoke first]
  | S more' =>
      ChatGPTHandler.Invoke first :: ChatGPTHandler.Backoff first
      :: attempts_trace (S first) more'
  end.

Definition is_backoff (s : ChatGPTHandler.step) : bool :=
  match s with ChatGPTHandler.Backoff _ => true | _ => false end.

(** Number of sleeps between attempts among some steps. *)
Definition backoffs (steps : list ChatGPTHandler.step) : nat :=
  length (List.filter is_backoff steps).

Section RetryMore.

Import ChatGPTHandler.

Lemma attempts_trace_counts (first more : nat) :
  invocations (attempts_trace first more) = S more
  /\ backoffs (attempts_trace first more) = more.
Proof.
  revert first. induction more as [| more IH]; intros first.
  - split; reflexivity.
  - destruct (IH (S first)) as [Hi Hb].
    unfold invocations, backoffs in *. simpl. rewrite Hi, Hb.
    split; reflexivity.
Qed.

(** The loop stops at the first outcome that is not retried. *)
Lemma retry_from_stops (create : nat -> api_result) (more : nat) :
  forall attempts_left first,
    (more <= attempts_left)%nat ->
    (forall i, (i < more)%nat -> retried (create (first + i)%nat) = true) ->
    retried (create (first + more)%nat) = false ->
    retry_from attempts_left first create
    = (create (first + more)%nat, attempts_trace first more).
Proof.
  induction more as [| more IH]; intros attempts_left first Hle Hbefore Hlast.
  - rewrite Nat.add_0_r in *.
    destruct attempts_left; simpl; unfold retried in Hlast;
      destruct (create first) as [response | e]; try reflexivity;
      rewrite Hlast; reflexivity.
  - destruct attempts_left as [| attempts_left]; [lia |].
    pose proof (Hbefore 0%nat ltac:(lia)) as Hfirst.
    rewrite Nat.add_0_r in Hfirst. unfold retried in Hfirst.
    simpl. destruct (create first) as [response | e]; [discriminate |].
    rewrite Hfirst.
    rewrite (IH attempts_left (S first)).
    + replace (S first + more)%nat with (first + S more)%nat by lia.
      reflexivity.
    + lia.
    + intros i Hi. replace (S first + i)%nat with (first + S i)%nat by lia.
      apply Hbefore. lia.
    + replace (S first + more)%nat with (first + S more)%nat by lia.
      exact Hlast.
Qed.

(** The loop gives up after the last allowed attempt. *)
Lemma retry_from_gives_up (create : nat -> api_result) :
  forall attempts_left first,
    (forall i, (i <= attempts_left)%nat ->
               retried (create (first + i)%nat) = true) ->
    retry_from attempts_left first create
    = (create (first + attempts_left)%nat,
       attempts_trace first attempts_left).
Proof.
  induction attempts_left as [| attempts_left IH]; intros first Hall.
  - pose proof (Hall 0%nat ltac:(lia)) as H0.
    rewrite Nat.add_0_r in *. unfold retried in H0. simpl.
    destruct (create first) as [response | e]; [discriminate |].
    rewrite H0. reflexivity.
  - pose proof (Hall 0%nat ltac:(lia)) as H0.
    rewrite Nat.add_0_r in H0. unfold retried in H0. simpl.
    destruct (create first) as [response | e]; [discriminate |].
    rewrite H0. rewrite (IH (S first)).
    + replace (S first + attempts_left)%nat
        with (first + S attempts_left)%nat by lia.
      reflexivity.
    + intros i Hi. replace (S first + i)%nat with (first + S i)%nat by lia.
      apply Hall. lia.
Qed.

Lemma retry_from_shape (create : nat -> api_result) :
  forall attempts_left first,
    exists more,
      (more <= attempts_left)%nat
      /\ retry_from attempts_left first create
         = (create (first + more)%nat, attempts_trace first more)
      /\ (forall i, (i < more)%nat ->
                    retried (create (first + i)%nat) = true)
      /\ ((more < attempts_left)%nat ->
          retried (create (first + more)%nat) = false).
Proof.
  induction attempts_left as [| attempts_left IH]; intros first.
  - exists 0%nat. rewrite Nat.add_0_r. split; [lia |]. split.
    + simpl. destruct (create first) as [response | e]; [reflexivity |].
      destruct (retry_if_exception_type (exn_cls e)); reflexivity.
    + split; intros; lia.
  - destruct (retried (create first)) eqn:Hr.
    + destruct (IH (S first)) as (more & Hle & Hrun & Hbefore & Hlast).
      exists (S more). split; [lia |]. split.
      * unfold retried in Hr. simpl.
        destruct (create first) as [response | e]; [discriminate |].
        rewrite Hr, Hrun.
        replace (S first + more)%nat with (first + S more)%nat by lia.
        reflexivity.
      * split.
        -- intros i Hi. destruct i as [| i].
           ++ rewrite Nat.add_0_r. exact Hr.
           ++ replace (first + S i)%nat with (S first + i)%nat by lia.
              apply Hbefore. lia.
        -- intros Hlt.
           replace (first + S more)%nat with (S first + more)%nat by lia.
           apply Hlast. lia.
    + exists 0%nat. rewrite Nat.add_0_r. split; [lia |]. split.
      * unfold retried in Hr. simpl.
        destruct (create first) as [response | e]; [reflexivity |].
        rewrite Hr. reflexivity.
      * split; [intros; lia | intros _; exact Hr].
Qed.

(** X6.  Whatever the remote service does, the decorated call makes
    consecutive attempts numbered from 1 with one sleep between each two,
    makes no more than [max 1 stop_after_attempt] of them, returns or
    raises what its last attempt returned or raised, and every attempt
    before the last raised one of the five retried classes. *)
Theorem retry_makes_consecutive_attempts
    (stop_after_attempt : nat) (create : nat -> api_result) :
  exists last,
    (1 <= last <= Nat.max 1 stop_after_attempt)%nat
    /\ retry stop_after_attempt create
       = (create last, attempts_trace 1 (last - 1))
    /\ invocations (retry stop_after_attempt create).2 = last
    /\ backoffs (retry stop_after_attempt create).2 = (last - 1)%nat
    /\ forall i, (1 <= i < last)%nat -> retried (create i) = true.
Proof.
  unfold retry.
  destruct (retry_from_shape create (stop_after_attempt - 1) 1)
    as (more & Hle & Hrun & Hbefore & _).
  exists (S more). replace (S more - 1)%nat with more by lia.
  rewrite Hrun. cbn [fst snd].
  destruct (attempts_trace_counts 1 more) as [Hi Hb].
  split; [lia |]. split; [reflexivity |].
  split; [exact Hi |]. split; [exact Hb |].
  intros i Hi'. replace i with (1 + (i - 1))%nat by lia.
  apply Hbefore. lia.
Qed.

(** X7.  If the attempts before attempt [k] all raise retried classes and
    attempt [k], within the limit, returns a response or raises another
    class, the decorated call ends with that outcome after exactly [k]
    invocations and [k - 1] sleeps. *)
Theorem retry_ends_at_first_final_outcome
    (stop_after_attempt k : nat) (create : nat -> api_result) :
  (1 <= k <= Nat.max 1 stop_after_attempt)%nat ->
  (forall i, (1 <= i < k)%nat -> retried (create i) = true) ->
  retried (create k) = false ->
  retry stop_after_attempt create = (create k, attempts_trace 1 (k - 1))
  /\ invocations (retry stop_after_attempt create).2 = k
  /\ backoffs (retry stop_after_attempt create).2 = (k - 1)%nat.
Proof.
  intros Hk Hbefore Hlast. unfold retry.
  assert (Hrun : retry_from (stop_after_attempt - 1) 1 create
                 = (create k, attempts_trace 1 (k - 1))).
  { rewrite (retry_from_stops create (k - 1)).
    - replace (1 + (k - 1))%nat with k by lia. reflexivity.
    - lia.
    - intros i Hi. apply Hbefore. lia.
    - replace (1 + (k - 1))%nat with k by lia. exact Hlast. }
  rewrite Hrun. cbn [fst snd].
  destruct (attempts_trace_counts 1 (k - 1)) as [Hi Hb].
  split; [reflexivity |]. split; [rewrite Hi; lia | exact Hb].
Qed.

(** X8.  If every attempt up to the limit raises a retried class, the
    decorated call raises the exception of the last attempt itself (not a
    wrapper), after exactly as many invocations as the limit allows. *)
Theorem retry_reraises_last_error
    (stop_after_attempt : nat) (create : nat -> api_result) :
  (1 <= stop_after_attempt)%nat ->
  (forall i, (1 <= i <= stop_after_attempt)%nat ->
             retried (create i) = true) ->
  retry stop_after_attempt create
  = (create stop_after_attempt,
     attempts_trace 1 (stop_after_attempt - 1))
  /\ invocations (retry stop_after_attempt create).2 = stop_after_attempt
  /\ exists e, create stop_after_attempt = ApiRaise e.
Proof.
  intros Hn Hall. unfold retry.
  assert (Hrun : retry_from (stop_after_attempt - 1) 1 create
                 = (create stop_after_attempt,
                    attempts_trace 1 (stop_after_attempt - 1))).
  { rewrite retry_from_gives_up.
    - replace (1 + (stop_after_attempt - 1))%nat
        with stop_after_attempt by lia.
      reflexivity.
    - intros i Hi. apply Hall. lia. }
  rewrite Hrun. cbn [fst snd].
  destruct (attempts_trace_counts 1 (stop_after_attempt - 1)) as [Hi _].
  split; [reflexivity |]. split; [rewrite Hi; lia |].
  specialize (Hall stop_after_attempt ltac:(lia)). unfold retried in Hall.
  destruct (create stop_after_attempt) as [response | e]; [discriminate |].
  exists e. reflexivity.
Qed.

(** A service that times out twice and then answers. *)
Definition flaky (attempt_number : nat) : api_result :=
  if (attempt_number <=? 2)%nat
  then ApiRaise (Exn Timeout (lit "Request timed out"))
  else ApiReturn (Some [PStr (lit "ok")]).

(** A service that turns every request down as too frequent. *)
Definition throttled (attempt_number : nat) : api_result :=
  ApiRaise (Exn RateLimitError (lit "Rate limit reached")).

(** [flaky] under a limit of three attempts. *)
Lemma retry_ends_at_first_final_outcome_witness :
  (1 <= 3 <= Nat.max 1 3)%nat
  /\ (forall i, (1 <= i < 3)%nat -> retried (flaky i) = true)
  /\ retried (flaky 3) = false
  /\ retry 3 flaky = (flaky 3, attempts_trace 1 (3 - 1))
  /\ invocations (retry 3 flaky).2 = 3%nat
  /\ backoffs (retry 3 flaky).2 = (3 - 1)%nat.
Proof.
  assert (H1 : (1 <= 3 <= Nat.max 1 3)%nat) by (simpl; lia).
  assert (H2 : forall i, (1 <= i < 3)%nat -> retried (flaky i) = true).
  { intros i Hi. destruct i as [| [| [| i]]]; try lia; reflexivity. }
  assert (H3 : retried (flaky 3) = false) by reflexivity.
  split; [exact H1 |]. split; [exact H2 |]. split; [exact H3 |].
  apply (retry_ends_at_first_final_outcome 3 3 flaky H1 H2 H3).
Defined.

(** [throttled] under the limit of five attempts of [call_openai_api]. *)
Lemma retry_reraises_last_error_witness :
  (1 <= 5)%nat
  /\ (forall i, (1 <= i <= 5)%nat -> retried (throttled i) = true)
  /\ retry 5 throttled = (throttled 5, attempts_trace 1 (5 - 1))
  /\ invocations (retry 5 throttled).2 = 5%nat
  /\ exists e, throttled 5 = ApiRaise e.
Proof.
  assert (H1 : (1 <= 5)%nat) by lia.
  assert (H2 : forall i, (1 <= i <= 5)%nat -> retried (throttled i) = true)
    by (intros i _; reflexivity).
  split; [exact H1 |]. split; [exact H2 |].
  apply (retry_reraises_last_error 5 throttled H1 H2).
Defined.

End RetryMore.

(** * Further properties of the token counter *)

(** Every value of every message is one the tokenizer accepts. *)
Definition encodable (encode : pystr -> option (list N))
           (ms : list message) : Prop :=
  forall m, m ∈ ms ->
            forall key value, m !! key = Some value ->
                              is_Some (encode_value encode value).

Section TokenCounterMore.

Variable encode : pystr -> option (list N).

Lemma count_items_none (items : list (pystr * pyval)) :
  forall n : Z,
    count_items encode items n = None <->
    exists key value, (key, value) ∈ items
                      /\ encode_value encode value = None.
Proof.
  induction items as [| [key value] items IH]; intros n; simpl.
  - split; [discriminate |]. intros (k & v & Hin & _).
    apply elem_of_nil in Hin. contradiction.
  - destruct (encode_value encode value) as [toks |] eqn:Ev.
    + rewrite IH. split.
      * intros (k & v & Hin & Hv). exists k, v.
        split; [apply list_elem_of_further; exact Hin | exact Hv].
      * intros (k & v & Hin & Hv). exists k, v.
        apply elem_of_cons in Hin as [Heq | Hin]; [| split; assumption].
        injection Heq as -> ->. congruence.
    + split; [| reflexivity]. intros _. exists key, value.
      split; [apply list_elem_of_here | exact Ev].
Qed.

Lemma count_messages_none (ms : list message) :
  forall n : Z,
    count_messages encode ms n = None <->
    exists m key value, m ∈ ms /\ m !! key = Some value
                        /\ encode_value encode value = None.
Proof.
  induction ms as [| m0 ms IH]; intros n; simpl.
  - split; [discriminate |]. intros (m & k & v & Hin & _).
    apply elem_of_nil in Hin. contradiction.
  - destruct (count_items encode (map_to_list m0) (n + tokens_per_message))
      as [z |] eqn:Ec.
    + rewrite IH. split.
      * intros (m & k & v & Hin & Hrest). exists m, k, v.
        split; [apply list_elem_of_further; exact Hin | exact Hrest].
      * intros (m & k & v & Hin & Hk & Hv).
        apply elem_of_cons in Hin as [-> | Hin].
        -- exfalso.
           assert (Hnone : count_items encode (map_to_list m0)
                                       (n + tokens_per_message) = None).
           { apply count_items_none. exists k, v.
             split; [apply elem_of_map_to_list; exact Hk | exact Hv]. }
           congruence.
        -- exists m, k, v. repeat split; assumption.
    + split; [| reflexivity]. intros _.
      apply count_items_none in Ec as (k & v & Hin & Hv).
      exists m0, k, v.
      split; [apply list_elem_of_here |].
      split; [apply elem_of_map_to_list; exact Hin | exact Hv].
Qed.

Lemma count_messages_lower (ms : list message) :
  forall n z : Z,
    count_messages encode ms n = Some z ->
    n + 3 * Z.of_nat (length ms) <= z.
Proof.
  induction ms as [| m ms IH]; intros n z; simpl.
  - intros [= <-]. lia.
  - destruct (count_items encode (map_to_list m) (n + tokens_per_message))
      as [k |] eqn:Ec; [| discriminate].
    intros Hrest. apply message_adds_three in Ec.
    apply IH in Hrest. lia.
Qed.


Lemma encodable_counts (ms : list message) :
  encodable encode ms -> exists z, count_messages encode ms 0 = Some z.
Proof.
  intros Hwf. destruct (count_messages encode ms 0) as [z |] eqn:Ec;
    [exists z; reflexivity |].
  apply count_messages_none in Ec as (m & k & v & Hin & Hk & Hv).
  destruct (Hwf m Hin k v Hk) as [toks Htoks]. congruence.
Qed.

(** X10.  When every value encodes, the count is at least 2 plus 3 per
    message: 4 per message, the lengths of its values, and at most one
    token off for a ["name"]. *)
Theorem count_tokens_at_least (ms : list message) :
  encodable encode ms ->
  2 + 3 * Z.of_nat (length ms) <= count_tokens encode ms.
Proof.
  intros Hwf. destruct (encodable_counts ms Hwf) as [z Hz].
  unfold count_tokens. rewrite Hz.
  apply count_messages_lower in Hz. lia.
Qed.

Lemma count_items_shift (items : list (pystr * pyval)) :
  forall n d : Z,
    count_items encode items (n + d)
    = (fun z => z + d) <$> count_items encode items n.
Proof.
  induction items as [| [key value] items IH]; intros n d; simpl;
    [reflexivity |].
  destruct (encode_value encode value) as [toks |]; [| reflexivity].
  destruct (decide (key = lit "name")).
  - rewrite <- IH. f_equal. lia.
  - rewrite <- IH. f_equal. lia.
Qed.

Lemma count_messages_shift (ms : list message) :
  forall n d : Z,
    count_messages encode ms (n + d)
    = (fun z => z + d) <$> count_messages encode ms n.
Proof.
  induction ms as [| m ms IH]; intros n d; simpl; [reflexivity |].
  replace (n + d + tokens_per_message)
    with (n + tokens_per_message + d) by lia.
  rewrite count_items_shift.
  destruct (count_items encode (map_to_list m) (n + tokens_per_message))
    as [k |]; simpl; [apply IH | reflexivity].
Qed.

Lemma count_messages_app (ms1 ms2 : list message) :
  forall n : Z,
    count_messages encode (ms1 ++ ms2) n
    = match count_messages encode ms1 n with
      | Some k => count_messages encode ms2 k
      | None => None
      end.
Proof.
  induction ms1 as [| m ms1 IH]; intros n; simpl; [reflexivity |].
  destruct (count_items encode (map_to_list m) (n + tokens_per_message));
    [apply IH | reflexivity].
Qed.

(** X11.  On sessions whose values all encode, counting is additive up to
    the reply priming: the count of a concatenation is the sum of the
    counts less the 2 that each count adds at its end. *)
Theorem count_tokens_app (ms1 ms2 : list message) :
  encodable encode ms1 -> encodable encode ms2 ->
  count_tokens encode (ms1 ++ ms2)
  = count_tokens encode ms1 + count_tokens encode ms2 - 2.
Proof.
  intros H1 H2.
  destruct (encodable_counts ms1 H1) as [z1 Hz1].
  destruct (encodable_counts ms2 H2) as [z2 Hz2].
  unfold count_tokens. rewrite count_messages_app, Hz1, Hz2.
  replace z1 with (0 + z1) at 1 by lia.
  rewrite count_messages_shift, Hz2. simpl. lia.
Qed.

Lemma count_items_swap (k1 k2 : pystr) (v1 v2 : pyval)
      (items : list (pystr * pyval)) (n : Z) :
  count_items encode ((k1, v1) :: (k2, v2) :: items) n
  = count_items encode ((k2, v2) :: (k1, v1) :: items) n.
Proof.
  simpl.
  destruct (encode_value encode v1) as [t1 |];
    destruct (encode_value encode v2) as [t2 |]; try reflexivity.
  destruct (decide (k1 = lit "name")); destruct (decide (k2 = lit "name"));
    f_equal; lia.
Qed.

Lemma count_items_perm (items items' : list (pystr * pyval)) :
  items ≡ₚ items' ->
  forall n : Z, count_items encode items n = count_items encode items' n.
Proof.
  induction 1 as [| [k v] l l' _ IH | [k1 v1] [k2 v2] l | l l' l'' _ IH1 _ IH2];
    intros n.
  - reflexivity.
  - simpl. destruct (encode_value encode v); [| reflexivity].
    destruct (decide (k = lit "name")); apply IH.
  - apply count_items_swap.
  - rewrite IH1. apply IH2.
Qed.

(** X12.  Adding a field to the last message of a session whose values
    all encode raises the count by the number of tokens of the field's
    value, and by one less when the field is ["name"]. *)
Theorem count_tokens_field
    (ms : list message) (m : message) (key : pystr) (value : pyval)
    (toks : list N) :
  m !! key = None ->
  encode_value encode value = Some toks ->
  encodable encode (ms ++ [m]) ->
  count_tokens encode (ms ++ [<[key := value]> m])
  = count_tokens encode (ms ++ [m]) + Z.of_nat (length toks)
    + (if decide (key = lit "name") then -1 else 0).
Proof.
  intros Hfresh Hvalue Hwf.
  destruct (encodable_counts _ Hwf) as [z Hz].
  unfold count_tokens. rewrite Hz.
  rewrite count_messages_app in Hz. rewrite count_messages_app.
  destruct (count_messages encode ms 0) as [k |]; [| discriminate].
  simpl in *.
  rewrite (count_items_perm _ _ (map_to_list_insert m key value Hfresh)).
  simpl. rewrite Hvalue. unfold tokens_per_name.
  destruct (count_items encode (map_to_list m) (k + tokens_per_message))
    as [zm |] eqn:Em; [| discriminate].
  injection Hz as <-.
  destruct (decide (key = lit "name")).
  - replace (k + tokens_per_message + Z.of_nat (length toks) + -1)
      with (k + tokens_per_message + (Z.of_nat (length toks) + -1)) by lia.
    rewrite count_items_shift, Em. simpl. lia.
  - rewrite count_items_shift, Em. simpl. lia.
Qed.

(** X13.  Appending a message made of a role and a content to a session
    whose values all encode raises the count by 4 plus the numbers of
    tokens of the role and of the content. *)
Theorem count_tokens_role_content
    (ms : list message) (role content : pystr) (r c : list N) :
  encode role = Some r -> encode content = Some c ->
  encodable encode ms ->
  count_tokens encode (ms ++ [make_message role content])
  = count_tokens encode ms + 4
    + Z.of_nat (length r) + Z.of_nat (length c).
Proof.
  intros Hr Hc Hwf.
  destruct (encodable_counts _ Hwf) as [z Hz].
  unfold count_tokens. rewrite count_messages_app, Hz. simpl.
  assert (Hperm : map_to_list (make_message role content)
                  ≡ₚ [(lit "role", PStr role); (lit "content", PStr content)]).
  { unfold make_message. rewrite map_to_list_insert.
    - rewrite insert_empty, map_to_list_singleton. reflexivity.
    - rewrite insert_empty. apply lookup_singleton_ne. discriminate. }
  rewrite (count_items_perm _ _ Hperm). simpl. rewrite Hr, Hc.
  destruct (decide (lit "role" = lit "name")) as [E | _]; [discriminate E |].
  destruct (decide (lit "content" = lit "name")) as [E | _];
    [discriminate E |].
  unfold tokens_per_message. lia.
Qed.

End TokenCounterMore.

Lemma make_message_encodable (role content key : pystr) (value : pyval) :
  make_message role content !! key = Some value ->
  is_Some (encode_value char_encode value).
Proof.
  intros H. destruct value as [s |]; [eexists; reflexivity |].
  exfalso. unfold make_message in H.
  apply lookup_insert_Some in H as [[_ H] | [_ H]]; [discriminate |].
  apply lookup_insert_Some in H as [[_ H] | [_ H]]; [discriminate |].
  rewrite lookup_empty in H. discriminate.
Qed.

Lemma made_messages_encodable (ms : list message) :
  Forall (fun m => exists role content, m = make_message role content) ms ->
  encodable char_encode ms.
Proof.
  intros Hall m Hin key value Hk.
  rewrite list.Forall_forall in Hall.
  destruct (Hall m Hin) as (role & content & ->).
  eapply make_message_encodable. exact Hk.
Qed.

Lemma sample_encodable : encodable char_encode [be_brief; hello].
Proof.
  apply made_messages_encodable.
  repeat (apply Forall_cons; [eexists _, _; reflexivity |]).
  apply Forall_nil.
Qed.

(** The session [be_brief; hello]. *)
Lemma count_tokens_at_least_witness :
  encodable char_encode [be_brief; hello]
  /\ 2 + 3 * Z.of_nat (length [be_brief; hello])
     <= count_tokens char_encode [be_brief; hello].
Proof.
  split; [exact sample_encodable |].
  apply (count_tokens_at_least char_encode [be_brief; hello] sample_encodable).
Defined.

(** The session [be_brief; hello] twice over. *)
Lemma count_tokens_app_witness :
  encodable char_encode [be_brief; hello]
  /\ count_tokens char_encode ([be_brief; hello] ++ [be_brief; hello])
     = count_tokens char_encode [be_brief; hello]
       + count_tokens char_encode [be_brief; hello] - 2.
Proof.
  split; [exact sample_encodable |].
  apply (count_tokens_app char_encode [be_brief; hello] [be_brief; hello]
                          sample_encodable sample_encodable).
Defined.

(** Naming the author of [hello]. *)
Lemma count_tokens_field_witness :
  hello !! lit "name" = None
  /\ encode_value char_encode (PStr (lit "Al")) = Some (lit "Al")
  /\ encodable char_encode ([be_brief] ++ [hello])
  /\ count_tokens char_encode
       ([be_brief] ++ [<[lit "name" := PStr (lit "Al")]> hello])
     = count_tokens char_encode ([be_brief] ++ [hello])
       + Z.of_nat (length (lit "Al"))
       + (if decide (lit "name" = lit "name") then -1 else 0).
Proof.
  assert (H1 : hello !! lit "name" = None) by reflexivity.
  assert (H2 : encode_value char_encode (PStr (lit "Al")) = Some (lit "Al"))
    by reflexivity.
  split; [exact H1 |]. split; [exact H2 |].
  split; [exact sample_encodable |].
  apply (count_tokens_field char_encode [be_brief] hello (lit "name")
                            (PStr (lit "Al")) (lit "Al") H1 H2
                            sample_encodable).
Defined.

(** Appending a reply to [be_brief; hello]. *)
Lemma count_tokens_role_content_witness :
  char_encode (lit "assistant") = Some (lit "assistant")
  /\ char_encode (lit "Hi!") = Some (lit "Hi!")
  /\ encodable char_encode [be_brief; hello]
  /\ count_tokens char_encode
       ([be_brief; hello] ++ [make_message (lit "assistant") (lit "Hi!")])
     = count_tokens char_encode [be_brief; hello] + 4
       + Z.of_nat (length (lit "assistant")) + Z.of_nat (length (lit "Hi!")).
Proof.
  split; [reflexivity |]. split; [reflexivity |].
  split; [exact sample_encodable |].
  apply (count_tokens_role_content char_encode [be_brief; hello]
           (lit "assistant") (lit "Hi!") (lit "assistant") (lit "Hi!")
           eq_refl eq_refl sample_encodable).
Defined.

(** * Further properties of the context window manager *)

Section BudgetMore.

Import ChatGPTHandler.

Variable encode : pystr -> option (list N).

(** X14.  [manage_token_limit] removes a run of consecutive messages that
    starts at index 1, oldest first: what it keeps is the message at index
    0 followed by the most recent messages, in their order. *)
Theorem eviction_is_oldest_first (h : t) :
  exists k,
    evicted (manage_token_limit encode h).2 = take k (tail (messages h))
    /\ messages (manage_token_limit encode h).1
       = take 1 (messages h) ++ drop (S k) (messages h).
Proof.
  funelim (manage_token_limit encode h).
  - exists 0%nat. simpl. split; [reflexivity |].
    destruct (messages h); reflexivity.
  - exists 0%nat. simpl. rewrite e. split; reflexivity.
  - exists 0%nat. simpl. rewrite e. split; reflexivity.
  - destruct (manage_token_limit encode (set_messages h (first :: later) true))
      as [h' log]. simpl in *.
    destruct H as (k & Hev & Hkept). exists (S k).
    rewrite Hm. simpl. rewrite Hev, Hkept. split; reflexivity.
Qed.

(** X15.  Nothing is removed without need: before each removal the
    session, as the earlier removals had left it, was over budget. *)
Theorem eviction_only_over_budget (h : t) (j : nat) :
  (j < length (evicted (manage_token_limit encode h).2))%nat ->
  within_budget encode
    (set_messages h (take 1 (messages h) ++ drop (S j) (messages h)) true)
  = false.
Proof.
  revert j. funelim (manage_token_limit encode h); intros j Hj;
    try (simpl in Hj; lia).
  destruct (manage_token_limit encode (set_messages h (first :: later) true))
    as [h' log]. simpl in *.
  rewrite Hm. destruct j as [| j].
  - simpl. unfold within_budget in *. simpl. rewrite <- Hm. exact Heq.
  - specialize (H j ltac:(lia)). simpl. exact H.
Qed.

(** X16.  The warning of line 168 is logged exactly when the session is
    returned over budget. *)
Theorem warning_iff_over_budget (h : t) :
  CannotRemove ∈ (manage_token_limit encode h).2
  <-> within_budget encode (manage_token_limit encode h).1 = false.
Proof.
  funelim (manage_token_limit encode h).
  - simpl. split; [| congruence].
    intros Hin. apply elem_of_nil in Hin. contradiction.
  - simpl. split; [intros _; exact Heq | intros _; apply list_elem_of_here].
  - simpl. split; [intros _; exact Heq | intros _; apply list_elem_of_here].
  - destruct (manage_token_limit encode (set_messages h (first :: later) true))
      as [h' log]. simpl in *. rewrite <- H. split.
    + intros Hin. apply elem_of_cons in Hin as [Hfalse | Hin];
        [discriminate | exact Hin].
    + intros Hin. apply list_elem_of_further. exact Hin.
Qed.

Lemma manage_token_limit_rest (h : t) :
  max_context_tokens (manage_token_limit encode h).1 = max_context_tokens h
  /\ max_response_tokens (manage_token_limit encode h).1
     = max_response_tokens h
  /\ rate_limiter (manage_token_limit encode h).1 = rate_limiter h
  /\ session_file (manage_token_limit encode h).1 = session_file h
  /\ session_changed (manage_token_limit encode h).1
     = match evicted (manage_token_limit encode h).2 with
       | [] => session_changed h
       | _ :: _ => true
       end.
Proof.
  funelim (manage_token_limit encode h);
    try (simpl; repeat split; reflexivity).
  destruct (manage_token_limit encode (set_messages h (first :: later) true))
    as [h' log]. simpl in *.
  destruct H as (H1 & H2 & H3 & H4 & H5).
  repeat split; try assumption.
  rewrite H5. destruct (evicted log); reflexivity.
Qed.

(** X17.  [manage_token_limit] touches nothing but the message list and
    the change flag: the limits, the rate limiter and the session file
    stay, and the flag is raised when a message is removed and kept
    otherwise. *)
Theorem manage_token_limit_frame (h : t) :
  let h' := (manage_token_limit encode h).1 in
  max_context_tokens h' = max_context_tokens h
  /\ max_response_tokens h' = max_response_tokens h
  /\ rate_limiter h' = rate_limiter h
  /\ session_file h' = session_file h
  /\ session_changed h'
     = match evicted (manage_token_limit encode h).2 with
       | [] => session_changed h
       | _ :: _ => true
       end.
Proof. exact (manage_token_limit_rest h). Qed.

(** X18.  A session holding a value that cannot be encoded is never
    trimmed, however long it is, as long as the response limit does not
    exceed the context limit: its count is the 0 of the exception
    handler. *)
Theorem unencodable_session_is_not_trimmed
    (h : t) (m : message) (key : pystr) (value : pyval) :
  m ∈ messages h -> m !! key = Some value ->
  encode_value encode value = None ->
  max_response_tokens h <= max_context_tokens h ->
  manage_token_limit encode h = (h, []).
Proof.
  intros Hin Hk Hv Hlimits.
  assert (Hzero : count_tokens encode (messages h) = 0).
  { unfold count_tokens.
    assert (Hnone : count_messages encode (messages h) 0 = None).
    { apply count_messages_none. exists m, key, value.
      repeat split; assumption. }
    rewrite Hnone. reflexivity. }
  assert (Hin_budget : within_budget encode h = true).
  { unfold within_budget. rewrite Hzero. apply Z.leb_le. lia. }
  funelim (manage_token_limit encode h); congruence.
Qed.

End BudgetMore.

(** A long session spoilt by a [null]; context limit 10, response limit
    5. *)
Definition poisoned : ChatGPTHandler.t :=
  ChatGPTHandler.Make [be_brief; null_content; hello; hello; hello] false
                      10 5 (RateLimiter.__init__ 60 60 0) None.

(** The removal that [tight] undergoes. *)
Lemma eviction_only_over_budget_witness :
  (0 < length (ChatGPTHandler.evicted
                 (ChatGPTHandler.manage_token_limit char_encode tight).2))%nat
  /\ ChatGPTHandler.within_budget char_encode
       (ChatGPTHandler.set_messages tight
          (take 1 (ChatGPTHandler.messages tight)
           ++ drop 1 (ChatGPTHandler.messages tight)) true)
     = false.
Proof.
  assert (H : (0 < length (ChatGPTHandler.evicted
                 (ChatGPTHandler.manage_token_limit char_encode tight).2))%nat).
  { assert (E : length (ChatGPTHandler.evicted
                 (ChatGPTHandler.manage_token_limit char_encode tight).2)
                = 1%nat) by (vm_compute; reflexivity).
    rewrite E. lia. }
  split; [exact H |].
  apply (eviction_only_over_budget char_encode tight 0 H).
Defined.

(** [poisoned] comes back whole. *)
Lemma unencodable_session_is_not_trimmed_witness :
  null_content ∈ ChatGPTHandler.messages poisoned
  /\ null_content !! lit "content" = Some PNone
  /\ encode_value char_encode PNone = None
  /\ ChatGPTHandler.max_response_tokens poisoned
     <= ChatGPTHandler.max_context_tokens poisoned
  /\ ChatGPTHandler.manage_token_limit char_encode poisoned = (poisoned, []).
Proof.
  assert (H1 : null_content ∈ ChatGPTHandler.messages poisoned).
  { simpl. apply list_elem_of_further, list_elem_of_here. }
  assert (H2 : null_content !! lit "content" = Some PNone) by reflexivity.
  assert (H3 : encode_value char_encode PNone = None) by reflexivity.
  assert (H4 : ChatGPTHandler.max_response_tokens poisoned
               <= ChatGPTHandler.max_context_tokens poisoned)
    by (simpl; lia).
  repeat (split; [assumption |]).
  apply (unencodable_session_is_not_trimmed char_encode poisoned null_content
           (lit "content") PNone H1 H2 H3 H4).
Defined.

(** * Further properties of send_message *)

Section SendMore.

Import ChatGPTHandler.

Variable encode : pystr -> option (list N).

(** The handler on which the remote service is called: the token taken,
    the user's message appended, the session trimmed. *)
Definition prepared (w : world) (h : t) (user_input : pystr)
  : t * list log_record :=
  manage_token_limit encode
    (set_messages
       (set_rate_limiter h
          (RateLimiter.final
             (RateLimiter.acquire (stack_room w) (clock w)
                                  (rate_limiter h))))
       (messages h ++ [make_message (lit "user") user_input]) true).

Lemma send_message_returned (w : world) (h : t) (user_input : pystr) :
  truthy (strip user_input) = true ->
  RateLimiter.result
    (RateLimiter.acquire (stack_room w) (clock w) (rate_limiter h))
  = RateLimiter.Returned ->
  let h2 := (prepared w h user_input).1 in
  let before :=
    [Acquire; AppendUser; Trim (prepared w h user_input).2]
    ++ (call_openai_api (remote w h2)).2 in
  send_message encode w h user_input
  = match (call_openai_api (remote w h2)).1 with
    | ApiReturn (Some (PStr content :: _)) =>
        (Reply (strip content),
         save_session (write_ok w)
           (set_messages h2
              (messages h2
               ++ [make_message (lit "assistant") (strip content)]) true),
         before ++ [AppendAssistant; Save])
    | ApiReturn (Some (PNone :: _)) =>
        (Reply (handle none_has_no_strip), h2, before)
    | ApiReturn _ => (Reply no_response, h2, before)
    | ApiRaise e => (Reply (handle e), h2, before)
    end.
Proof.
  intros Hinput Hacq. unfold prepared, send_message.
  rewrite Hinput, Hacq. cbn [negb]. cbv beta iota zeta.
  cbn [messages set_rate_limiter].
  destruct (manage_token_limit encode _) as [h2 log]. cbn [fst snd].
  destruct (call_openai_api (remote w h2)) as [response calls].
  cbn [fst snd].
  destruct response as [[[| [content |] choices] |] | e]; reflexivity.
Qed.

Lemma send_message_not_returned (w : world) (h : t) (user_input : pystr) :
  truthy (strip user_input) = true ->
  let r := RateLimiter.acquire (stack_room w) (clock w) (rate_limiter h) in
  RateLimiter.result r <> RateLimiter.Returned ->
  send_message encode w h user_input
  = (match RateLimiter.result r with
     | RateLimiter.Raised e => Propagated e
     | _ => Hung
     end,
     set_rate_limiter h (RateLimiter.final r), [Acquire]).
Proof.
  intros Hinput r Hacq. unfold send_message. rewrite Hinput. simpl.
  fold r. destruct (RateLimiter.result r); [congruence | |]; reflexivity.
Qed.


Lemma head_snoc (ms : list message) (m : message) :
  ms <> [] -> head (ms ++ [m]) = head ms.
Proof. destruct ms; [congruence | reflexivity]. Qed.

Lemma save_session_messages (write_ok : bool) (h : t) :
  messages (save_session write_ok h) = messages h.
Proof.
  unfold save_session.
  destruct (negb (session_changed h)); [reflexivity |].
  destruct write_ok; reflexivity.
Qed.

Lemma send_message_head
    (w : world) (h : t) (user_input : pystr) :
  messages h <> [] ->
  head (messages (send_message encode w h user_input).1.2)
  = head (messages h).
Proof.
  intros Hne.
  destruct (truthy (strip user_input)) eqn:Hinput.
  - destruct (RateLimiter.result
                (RateLimiter.acquire (stack_room w) (clock w)
                                     (rate_limiter h))) eqn:Hacq.
    + assert (Hprep : head (messages (prepared w h user_input).1)
                      = head (messages h)).
      { unfold prepared. rewrite manage_token_limit_keeps_first. simpl.
        apply head_snoc. exact Hne. }
      rewrite (send_message_returned w h user_input Hinput Hacq). simpl.
      destruct (call_openai_api (remote w (prepared w h user_input).1)).1
        as [[[| [content |] choices] |] | e0]; simpl; try exact Hprep.
      rewrite save_session_messages. simpl. rewrite head_snoc; [exact Hprep |].
      intros Hnil. rewrite Hnil in Hprep. simpl in Hprep.
      destruct (messages h); [congruence | discriminate].
    + unfold send_message. rewrite Hinput, Hacq. reflexivity.
    + unfold send_message. rewrite Hinput, Hacq. reflexivity.
  - unfold send_message. rewrite Hinput. reflexivity.
Qed.

(** X20.  The message at index 0 of a non-empty session, the system
    prompt when there is one, is still at index 0 after [send_message],
    whatever the input, the clock and the remote service do. *)
Theorem send_message_keeps_first
    (w : world) (h : t) (user_input : pystr) :
  messages h <> [] ->
  head (messages (send_message encode w h user_input).1.2)
  = head (messages h).
Proof. apply send_message_head. Qed.

Lemma attempts_trace_kinds (more : nat) :
  forall first s,
    s ∈ attempts_trace first more -> is_invoke s || is_backoff s = true.
Proof.
  induction more as [| more IH]; intros first s Hin; simpl in Hin.
  - apply elem_of_cons in Hin as [-> | Hin]; [reflexivity |].
    apply elem_of_nil in Hin. contradiction.
  - apply elem_of_cons in Hin as [-> | Hin]; [reflexivity |].
    apply elem_of_cons in Hin as [-> | Hin]; [reflexivity |].
    apply (IH (S first)). exact Hin.
Qed.

(** The decorated call performs attempts and sleeps, at most five of the
    former, and nothing else. *)
Lemma call_steps (create : nat -> api_result) :
  (forall s, s ∈ (call_openai_api create).2 ->
             is_invoke s || is_backoff s = true)
  /\ (invocations (call_openai_api create).2 <= 5)%nat.
Proof.
  pose proof (retry_from_shape create 4 1) as (more & Hle & Hrun & _).
  unfold call_openai_api, retry.
  change (5 - 1)%nat with 4%nat. rewrite Hrun. cbn [snd].
  destruct (attempts_trace_counts 1 more) as [Hi _].
  split; [apply attempts_trace_kinds | rewrite Hi; lia].
Qed.

(** X21.  When the remote call ends with an exception, [send_message]
    turns it into a reply and leaves the session as it was prepared for
    the call: the user's message is not taken back, nothing is written to
    the session file, and the change flag is up. *)
Theorem failed_call_is_not_rolled_back
    (w : world) (h : t) (user_input : pystr) (e : py_exn) :
  truthy (strip user_input) = true ->
  RateLimiter.result
    (RateLimiter.acquire (stack_room w) (clock w) (rate_limiter h))
  = RateLimiter.Returned ->
  (call_openai_api (remote w (prepared w h user_input).1)).1 = ApiRaise e ->
  let '(reply, h', steps) := send_message encode w h user_input in
  reply = Reply (handle e)
  /\ h' = (prepared w h user_input).1
  /\ session_file h' = session_file h
  /\ session_changed h' = true
  /\ ~ AppendAssistant ∈ steps.
Proof.
  intros Hinput Hacq Hcall.
  rewrite (send_message_returned w h user_input Hinput Hacq), Hcall.
  split; [reflexivity |]. split; [reflexivity |].
  unfold prepared.
  destruct (manage_token_limit_rest encode
              (set_messages
                 (set_rate_limiter h
                    (RateLimiter.final
                       (RateLimiter.acquire (stack_room w) (clock w)
                                            (rate_limiter h))))
                 (messages h ++ [make_message (lit "user") user_input]) true))
    as (_ & _ & _ & Hfile & Hflag).
  split; [rewrite Hfile; reflexivity |].
  split; [rewrite Hflag; destruct (evicted _); reflexivity |].
  intros Hin.
  apply elem_of_app in Hin as [Hin | Hin].
  - repeat (apply elem_of_cons in Hin as [Hfalse | Hin]; [discriminate |]).
    apply elem_of_nil in Hin. exact Hin.
  - apply (proj1 (call_steps _)) in Hin. discriminate.
Qed.

(** X22.  When the call returns a response whose first choice has a text
    and the session file can be written, [send_message] returns the
    stripped text, the session ends with the assistant's message holding
    it, and the session file holds exactly the session in memory. *)
Theorem successful_call_is_saved
    (w : world) (h : t) (user_input content : pystr)
    (choices : list pyval) :
  truthy (strip user_input) = true ->
  RateLimiter.result
    (RateLimiter.acquire (stack_room w) (clock w) (rate_limiter h))
  = RateLimiter.Returned ->
  (call_openai_api (remote w (prepared w h user_input).1)).1
  = ApiReturn (Some (PStr content :: choices)) ->
  write_ok w = true ->
  let '(reply, h', steps) := send_message encode w h user_input in
  reply = Reply (strip content)
  /\ list.last (messages h')
     = Some (make_message (lit "assistant") (strip content))
  /\ session_file h' = Some (messages h')
  /\ session_changed h' = false.
Proof.
  intros Hinput Hacq Hcall Hwrite.
  rewrite (send_message_returned w h user_input Hinput Hacq), Hcall, Hwrite.
  unfold save_session. simpl.
  split; [reflexivity |]. split; [apply last_snoc |].
  split; reflexivity.
Qed.

Lemma invocations_app (s1 s2 : list step) :
  invocations (s1 ++ s2) = (invocations s1 + invocations s2)%nat.
Proof.
  unfold invocations. rewrite List.filter_app, length_app. reflexivity.
Qed.

Lemma no_acquire_among (steps : list step) :
  (forall s, s ∈ steps -> is_invoke s || is_backoff s = true) ->
  List.filter is_acquire steps = [].
Proof.
  induction steps as [| s steps IH]; intros Hall; [reflexivity |].
  simpl. pose proof (Hall s (list_elem_of_here _ _)) as Hs.
  destruct s; try discriminate; simpl; apply IH;
    intros s' Hin; apply Hall, list_elem_of_further, Hin.
Qed.

(** X23.  One [send_message] calls [acquire] once at most and the remote
    service five times at most. *)
Theorem send_message_calls_at_most_five_times
    (w : world) (h : t) (user_input : pystr) :
  let steps := (send_message encode w h user_input).2 in
  (invocations steps <= 5)%nat
  /\ (length (List.filter is_acquire steps) <= 1)%nat.
Proof.
  simpl.
  destruct (call_steps (remote w (prepared w h user_input).1))
    as [Hkinds Hfive].
  apply no_acquire_among in Hkinds.
  destruct (truthy (strip user_input)) eqn:Hinput.
  - destruct (RateLimiter.result
                (RateLimiter.acquire (stack_room w) (clock w)
                                     (rate_limiter h))) eqn:Hacq.
    + rewrite (send_message_returned w h user_input Hinput Hacq).
      destruct (call_openai_api (remote w (prepared w h user_input).1))
        as [response calls].
      cbn [fst snd] in *.
      assert (Hside : forall l tail,
                 invocations tail = 0%nat ->
                 List.filter is_acquire tail = [] ->
                 (invocations (([Acquire; AppendUser; Trim l] ++ calls)
                               ++ tail) <= 5)%nat
                 /\ (length (List.filter is_acquire
                               (([Acquire; AppendUser; Trim l] ++ calls)
                                ++ tail)) <= 1)%nat).
      { intros l tail Ht Ha.
        rewrite invocations_app, Ht, List.filter_app, Ha.
        rewrite invocations_app, List.filter_app, Hkinds.
        unfold invocations at 1. simpl. lia. }
      destruct response as [[[| [content |] choices] |] | e0]; cbn [snd];
        try (rewrite <- (app_nil_r (_ ++ calls)); apply Hside; reflexivity).
      apply Hside; reflexivity.
    + unfold send_message. rewrite Hinput, Hacq. simpl.
      unfold invocations. simpl. lia.
    + unfold send_message. rewrite Hinput, Hacq. simpl.
      unfold invocations. simpl. lia.
  - unfold send_message. rewrite Hinput. simpl. unfold invocations. simpl. lia.
Qed.



End SendMore.

(** The clock reads 0 and the service turns every request down. *)
Definition down : ChatGPTHandler.world :=
  ChatGPTHandler.World 990 [0%Q]
                       (fun attempt_number _ => throttled attempt_number)
                       true.




(** [tight] sends a message and keeps its system prompt. *)
Lemma send_message_keeps_first_witness :
  ChatGPTHandler.messages tight <> []
  /\ head (ChatGPTHandler.messages
             (ChatGPTHandler.send_message char_encode quiet tight
                (lit "Hello")).1.2)
     = head (ChatGPTHandler.messages tight).
Proof.
  assert (H : ChatGPTHandler.messages tight <> []) by discriminate.
  split; [exact H |].
  apply (send_message_keeps_first char_encode quiet tight (lit "Hello") H).
Defined.

(** A new session meets a service that is [down]. *)
Lemma failed_call_is_not_rolled_back_witness :
  truthy (strip (lit "Hello")) = true
  /\ RateLimiter.result
       (RateLimiter.acquire (ChatGPTHandler.stack_room down)
                            (ChatGPTHandler.clock down)
                            (ChatGPTHandler.rate_limiter fresh))
     = RateLimiter.Returned
  /\ (ChatGPTHandler.call_openai_api
        (ChatGPTHandler.remote down
           (prepared char_encode down fresh (lit "Hello")).1)).1
     = ChatGPTHandler.ApiRaise (Exn RateLimitError (lit "Rate limit reached"))
  /\ let '(reply, h', steps) :=
       ChatGPTHandler.send_message char_encode down fresh (lit "Hello") in
     reply = ChatGPTHandler.Reply
               (ChatGPTHandler.handle
                  (Exn RateLimitError (lit "Rate limit reached")))
     /\ h' = (prepared char_encode down fresh (lit "Hello")).1
     /\ ChatGPTHandler.session_file h' = ChatGPTHandler.session_file fresh
     /\ ChatGPTHandler.session_changed h' = true
     /\ ~ ChatGPTHandler.AppendAssistant ∈ steps.
Proof.
  split; [reflexivity |]. split; [reflexivity |]. split; [reflexivity |].
  apply (failed_call_is_not_rolled_back char_encode down fresh (lit "Hello")
           (Exn RateLimitError (lit "Rate limit reached"))
           eq_refl eq_refl eq_refl).
Defined.

(** A new session meets a service that answers. *)
Lemma successful_call_is_saved_witness :
  truthy (strip (lit "Hello")) = true
  /\ RateLimiter.result
       (RateLimiter.acquire (ChatGPTHandler.stack_room quiet)
                            (ChatGPTHandler.clock quiet)
                            (ChatGPTHandler.rate_limiter fresh))
     = RateLimiter.Returned
  /\ (ChatGPTHandler.call_openai_api
        (ChatGPTHandler.remote quiet
           (prepared char_encode quiet fresh (lit "Hello")).1)).1
     = ChatGPTHandler.ApiReturn (Some (PStr (lit "Hi!") :: []))
  /\ ChatGPTHandler.write_ok quiet = true
  /\ let '(reply, h', steps) :=
       ChatGPTHandler.send_message char_encode quiet fresh (lit "Hello") in
     reply = ChatGPTHandler.Reply (strip (lit "Hi!"))
     /\ list.last (ChatGPTHandler.messages h')
        = Some (make_message (lit "assistant") (strip (lit "Hi!")))
     /\ ChatGPTHandler.session_file h' = Some (ChatGPTHandler.messages h')
     /\ ChatGPTHandler.session_changed h' = false.
Proof.
  split; [reflexivity |]. split; [reflexivity |]. split; [reflexivity |].
  split; [reflexivity |].
  apply (successful_call_is_saved char_encode quiet fresh (lit "Hello")
           (lit "Hi!") [] eq_refl eq_refl eq_refl eq_refl).
Defined.

(** * Properties of construction and of sessions on disk *)

Section LifecycleFacts.

Import ChatGPTHandler Lifecycle.

Variable encode : pystr -> option (list N).

(** X24.  Saving a changed session to a writable file and loading it back
    from the file gives the same messages, with the change flag down. *)
Theorem save_then_load (h : t) :
  session_changed h = true ->
  let h' := load_session None (save_session true h) in
  messages h' = messages h
  /\ session_changed h' = false
  /\ session_file h' = Some (messages h).
Proof.
  intros Hchanged. unfold save_session, load_session.
  rewrite Hchanged. simpl. repeat split.
Qed.

(** X25.  When the session file exists, readable or not, the constructor
    ignores [system_prompt]: it builds the same handler whatever prompt it
    is given. *)
Theorem init_ignores_prompt_when_file_exists
    (b : boot) (max_context max_response : Z)
    (system_prompt other_prompt : option pystr)
    (max_calls : Z) (period now : Q) :
  disk b <> Absent ->
  __init__ b max_context max_response system_prompt max_calls period now
  = __init__ b max_context max_response other_prompt max_calls period now.
Proof.
  intros Hdisk. unfold __init__.
  destruct (disk b); [congruence | reflexivity | reflexivity].
Qed.

(** X26.  With the API key set and no error from its surroundings, the
    constructor called on an unreadable session file starts from an empty
    session, without the system prompt it was given, and called on a
    readable one starts from the saved messages. *)
Theorem init_from_existing_file
    (b : boot) (max_context max_response : Z) (system_prompt : option pystr)
    (max_calls : Z) (period now : Q) (c : N) (key : pystr) :
  api_key b = Some (c :: key) ->
  makedirs_error b = None -> encoding_error b = None ->
  disk b <> Absent ->
  exists h,
    __init__ b max_context max_response system_prompt max_calls period now
    = inr h
    /\ messages h = default [] (on_disk (disk b))
    /\ session_changed h = false
    /\ rate_limiter h = RateLimiter.__init__ max_calls period now.
Proof.
  intros Hkey Hdirs Henc Hdisk. unfold __init__.
  rewrite Hkey, Hdirs, Henc.
  destruct (disk b) as [| | saved]; [congruence | |];
    eexists; (split; [reflexivity |]); repeat split.
Qed.

(** X27.  [start_new_session] on a writable file replaces whatever the
    file of that name held by the new session, which is empty or holds the
    system prompt alone; the limits and the rate limiter, with the tokens
    it has left, carry over. *)
Theorem start_new_session_overwrites
    (there : option (list message)) (system_prompt : option pystr) (h : t) :
  let h' := start_new_session there true system_prompt h in
  messages h' = opening system_prompt
  /\ session_file h' = Some (opening system_prompt)
  /\ session_changed h' = false
  /\ rate_limiter h' = rate_limiter h
  /\ max_context_tokens h' = max_context_tokens h
  /\ max_response_tokens h' = max_response_tokens h.
Proof. simpl. unfold start_new_session, save_session. simpl. repeat split. Qed.

(** X28.  A handler constructed on no session file with a non-empty
    system prompt has that prompt at index 0, and still has it there after
    [send_message], whatever is sent and whatever the clock and the remote
    service do. *)
Theorem system_prompt_stays_first
    (b : boot) (max_context max_response : Z) (prompt : pystr)
    (max_calls : Z) (period now : Q) (h : t)
    (w : world) (user_input : pystr) :
  truthy prompt = true ->
  disk b = Absent ->
  __init__ b max_context max_response (Some prompt) max_calls period now
  = inr h ->
  head (messages h) = Some (make_message (lit "system") prompt)
  /\ head (messages (send_message encode w h user_input).1.2)
     = Some (make_message (lit "system") prompt).
Proof.
  intros Hprompt Hdisk Hinit.
  assert (Hhead : head (messages h)
                  = Some (make_message (lit "system") prompt)).
  { revert Hinit. unfold __init__.
    destruct (api_key b) as [[| c key] |]; try discriminate.
    destruct (makedirs_error b); [discriminate |].
    rewrite Hdisk. destruct (encoding_error b); [discriminate |].
    intros [= <-]. rewrite save_session_messages. simpl.
    rewrite Hprompt. reflexivity. }
  split; [exact Hhead |].
  rewrite send_message_head; [exact Hhead |].
  intros Hnil. rewrite Hnil in Hhead. discriminate.
Qed.

End LifecycleFacts.

(** The surroundings of a constructor call: the key is set and the session
    file holds a saved conversation. *)
Definition resumed : Lifecycle.boot :=
  Lifecycle.Boot (Some (lit "sk-test")) None
                 (Lifecycle.Holds [hello]) true None.

(** The same surroundings without a session file. *)
Definition first_run : Lifecycle.boot :=
  Lifecycle.Boot (Some (lit "sk-test")) None Lifecycle.Absent true None.

(** [tight] saved and loaded back. *)
Lemma save_then_load_witness :
  ChatGPTHandler.session_changed tight = true
  /\ ChatGPTHandler.messages
       (Lifecycle.load_session None (ChatGPTHandler.save_session true tight))
     = ChatGPTHandler.messages tight
  /\ ChatGPTHandler.session_changed
       (Lifecycle.load_session None (ChatGPTHandler.save_session true tight))
     = false
  /\ ChatGPTHandler.session_file
       (Lifecycle.load_session None (ChatGPTHandler.save_session true tight))
     = Some (ChatGPTHandler.messages tight).
Proof.
  split; [reflexivity |]. apply (save_then_load tight). reflexivity.
Defined.

(** A prompt given where a session was saved. *)
Lemma init_ignores_prompt_when_file_exists_witness :
  Lifecycle.disk resumed <> Lifecycle.Absent
  /\ Lifecycle.__init__ resumed 128000 32768 (Some (lit "Be brief.")) 60 60 0
     = Lifecycle.__init__ resumed 128000 32768 None 60 60 0.
Proof.
  assert (H : Lifecycle.disk resumed <> Lifecycle.Absent) by discriminate.
  split; [exact H |].
  apply (init_ignores_prompt_when_file_exists resumed 128000 32768
           (Some (lit "Be brief.")) None 60 60 0 H).
Defined.

(** The handler built where a session was saved. *)
Lemma init_from_existing_file_witness :
  Lifecycle.api_key resumed = Some (115%N :: lit "k-test")
  /\ Lifecycle.makedirs_error resumed = None
  /\ Lifecycle.encoding_error resumed = None
  /\ Lifecycle.disk resumed <> Lifecycle.Absent
  /\ exists h,
       Lifecycle.__init__ resumed 128000 32768 (Some (lit "Be brief."))
                          60 60 0
       = inr h
       /\ ChatGPTHandler.messages h
          = default [] (Lifecycle.on_disk (Lifecycle.disk resumed))
       /\ ChatGPTHandler.session_changed h = false
       /\ ChatGPTHandler.rate_limiter h = RateLimiter.__init__ 60 60 0.
Proof.
  assert (H : Lifecycle.disk resumed <> Lifecycle.Absent) by discriminate.
  split; [reflexivity |]. split; [reflexivity |]. split; [reflexivity |].
  split; [exact H |].
  apply (init_from_existing_file resumed 128000 32768
           (Some (lit "Be brief.")) 60 60 0 115%N (lit "k-test")
           eq_refl eq_refl eq_refl H).
Defined.

(** The handler of a first run, told to be brief. *)
Definition briefed : ChatGPTHandler.t :=
  ChatGPTHandler.Make [make_message (lit "system") (lit "Be brief.")] false
                      128000 32768 (RateLimiter.__init__ 60 60 0)
                      (Some [make_message (lit "system") (lit "Be brief.")]).

(** The handler of a first run sends a message. *)
Lemma system_prompt_stays_first_witness :
  truthy (lit "Be brief.") = true
  /\ Lifecycle.disk first_run = Lifecycle.Absent
  /\ Lifecycle.__init__ first_run 128000 32768 (Some (lit "Be brief."))
                        60 60 0
     = inr briefed
  /\ head (ChatGPTHandler.messages briefed)
     = Some (make_message (lit "system") (lit "Be brief."))
  /\ head (ChatGPTHandler.messages
             (ChatGPTHandler.send_message char_encode quiet briefed
                (lit "Hello")).1.2)
     = Some (make_message (lit "system") (lit "Be brief.")).
Proof.
  split; [reflexivity |]. split; [reflexivity |]. split; [reflexivity |].
  apply (system_prompt_stays_first char_encode first_run 128000 32768
           (lit "Be brief.") 60 60 0 briefed quiet (lit "Hello")
           eq_refl eq_refl eq_refl).
Defined.

(** * Properties of the callers in the window *)

Section GuiFacts.

Import ChatGPTHandler.

Variable encode : pystr -> option (list N).

Lemma lstrip_starts (s : pystr) (c : N) (r : pystr) :
  lstrip s = c :: r -> isspace c = false.
Proof.
  induction s as [| c0 s IH]; simpl; [discriminate |].
  destruct (isspace c0) eqn:E; [exact IH |].
  intros [= <- _]. exact E.
Qed.

Lemma lstrip_snoc (s : pystr) (c : N) (r : pystr) :
  isspace c = false -> lstrip (s ++ c :: r) = lstrip s ++ c :: r.
Proof.
  intros Hc. induction s as [| c0 s IH]; simpl.
  - rewrite Hc. reflexivity.
  - destruct (isspace c0); [exact IH | reflexivity].
Qed.

Lemma lstrip_lstrip (s : pystr) : lstrip (lstrip s) = lstrip s.
Proof.
  destruct (lstrip s) as [| c r] eqn:E; [reflexivity |].
  apply lstrip_starts in E. simpl. rewrite E. reflexivity.
Qed.

(** Stripping a stripped string changes nothing. *)
Lemma strip_strip (s : pystr) : strip (strip s) = strip s.
Proof.
  unfold strip at 2 3. destruct (lstrip s) as [| c r] eqn:E; [reflexivity |].
  pose proof (lstrip_starts _ _ _ E) as Hc.
  assert (Hb : rstrip (c :: r) = c :: reverse (lstrip (reverse r))).
  { unfold rstrip. rewrite reverse_cons, lstrip_snoc by exact Hc.
    rewrite reverse_app. reflexivity. }
  unfold strip. rewrite Hb. simpl. rewrite Hc.
  unfold rstrip. rewrite <- Hb. unfold rstrip.
  rewrite reverse_involutive, lstrip_lstrip. reflexivity.
Qed.

(** X29.  The window strips the input before it hands it on: on a blank
    input it does nothing at all, and otherwise the handler never takes
    its blank-input branch but goes on to the rate limiter. *)
Theorem window_never_sends_blank (w : world) (h : t) (text : pystr) :
  (strip text = [] /\ ChatGPTGUI.send_message encode w h text = (h, []))
  \/ (exists emitted,
        (ChatGPTGUI.send_message encode w h text).2
        = ChatGPTGUI.AppendChat (lit "You") (strip text)
          :: ChatGPTGUI.UpdateSendButton false (lit "Sending...")
          :: emitted)
     /\ head (send_message encode w h (strip text)).2 = Some Acquire.
Proof.
  unfold ChatGPTGUI.send_message.
  destruct (truthy (strip text)) eqn:Hinput.
  - right. split.
    + simpl. destruct (ChatGPTGUI.process_message encode w h (strip text))
        as [h' emitted]. exists emitted. reflexivity.
    + assert (Hin : truthy (strip (strip text)) = true)
        by (rewrite strip_strip; exact Hinput).
      destruct (RateLimiter.result
                  (RateLimiter.acquire (stack_room w) (clock w)
                                       (rate_limiter h))) eqn:Hacq.
      * rewrite (send_message_returned encode w h (strip text) Hin Hacq).
        destruct (call_openai_api _).1
          as [[[| [content |] choices] |] | e]; reflexivity.
      * rewrite (send_message_not_returned encode w h (strip text) Hin)
          by (rewrite Hacq; discriminate).
        reflexivity.
      * rewrite (send_message_not_returned encode w h (strip text) Hin)
          by (rewrite Hacq; discriminate).
        reflexivity.
  - left. simpl. split; [| reflexivity].
    destruct (strip text); [reflexivity | discriminate].
Qed.

(** X30.  The worker thread ends by showing exactly one line from
    ["ChatGPT"], never an empty one, and by enabling the send button
    again, unless [acquire] never returns, in which case it shows nothing
    and the button stays disabled. *)
Theorem worker_shows_one_line (w : world) (h : t) (user_input : pystr) :
  let emitted := (ChatGPTGUI.process_message encode w h user_input).2 in
  (send_message encode w h user_input).1.1 = Hung /\ emitted = []
  \/ (send_message encode w h user_input).1.1 <> Hung
     /\ exists line,
          line <> []
          /\ emitted
             = [ChatGPTGUI.AppendChat (lit "ChatGPT") line;
                ChatGPTGUI.UpdateSendButton true (lit "Send")].
Proof.
  simpl. unfold ChatGPTGUI.process_message.
  destruct (send_message encode w h user_input) as [[[text | e |] h'] steps];
    simpl.
  - right. split; [discriminate |].
    destruct text as [| c text]; simpl; eexists;
      (split; [| reflexivity]); discriminate.
  - right. split; [discriminate |]. eexists.
    split; [| reflexivity]. discriminate.
  - left. split; reflexivity.
Qed.

End GuiFacts.
